(** * hedera-sdk-go: transfer transactions, network names and key strings

    A shallow embedding of [transfer_transaction.go] and [network_name.go],
    with the collaborators these files call but that live elsewhere in the
    repository (the embedded [Transaction] value, the key parser, the
    execution engine) modelled next to them.  Go's mutable receiver
    [*TransferTransaction] becomes explicit state passing; a Go [panic]
    becomes a [Panic] outcome that keeps the state reached so far. *)

From stdpp Require Import base option strings list gmap.
From Stdlib Require Import ZArith NArith Lia Ascii.
From Stdlib.Strings Require Import Byte.

Open Scope string_scope.
Open Scope list_scope.

(** ** Bytes *)

Abbreviation bytes := (list byte).

#[global] Instance byte_eq_dec : EqDecision byte := Byte.byte_eq_dec.

(** ** [network_name.go] *)

Module NetworkName.

(** [type NetworkName string]: an open string type. *)
Definition NetworkName := string.

Definition NetworkNameMainnet : NetworkName := "mainnet".
Definition NetworkNameTestnet : NetworkName := "testnet".
Definition NetworkNamePreviewnet : NetworkName := "previewnet".

(** What a call does: return a value, or panic with a message. *)
Inductive go_result (A : Type) : Type :=
| Returns (a : A)
| Panics (message : string).
Arguments Returns {A} a.
Arguments Panics {A} message.

Definition unreachable_Network : string :=
  "unreacahble: NetworkName.Network() switch statement is non-exhaustive. NetworkName: ".

(** [func (networkName NetworkName) Network() string]; the [switch] falls
    through to [panic(fmt.Sprintf("...%s", networkName))]. *)
Definition Network (networkName : NetworkName) : go_result string :=
  if decide (networkName = NetworkNameMainnet) then Returns "0"
  else if decide (networkName = NetworkNameTestnet) then Returns "1"
  else if decide (networkName = NetworkNamePreviewnet) then Returns "2"
  else Panics (unreachable_Network +:+ networkName).

End NetworkName.

(** ** Key material and its string forms *)

Module Key.

Inductive KeyScheme : Type := Ed25519 | ECDSAsecp256k1.

#[global] Instance KeyScheme_eq_dec : EqDecision KeyScheme.
Proof. solve_decision. Defined.

(** Modelled from the spec: [PrivateKey] is declared elsewhere in the
    repository; section 3 gives [{scheme, keyBytes, optional chainCode}] with
    a 32-byte seed (Ed25519) or 32-byte scalar (ECDSA-secp256k1). *)
Record PrivateKey : Type := mkPrivateKey {
  scheme : KeyScheme;
  keyBytes : bytes;
  chainCode : option bytes
}.

(** Modelled from the spec: [PublicKey] is [{scheme, keyBytes}]. *)
Record PublicKey : Type := mkPublicKey {
  pubScheme : KeyScheme;
  pubBytes : bytes
}.

#[global] Instance PublicKey_eq_dec : EqDecision PublicKey.
Proof. solve_decision. Defined.

Inductive KeyError : Type :=
| InvalidKeyLength
| UnsupportedScheme
| MalformedHex.

(** *** Hexadecimal text, as [encoding/hex] writes and reads it *)

Definition hex_digit (n : N) : ascii :=
  if (n <? 10)%N then ascii_of_N (48 + n) else ascii_of_N (87 + n).

Definition hex_value (c : ascii) : option N :=
  let n := N_of_ascii c in
  if ((48 <=? n) && (n <=? 57))%N then Some (n - 48)%N
  else if ((97 <=? n) && (n <=? 102))%N then Some (n - 87)%N
  else if ((65 <=? n) && (n <=? 70))%N then Some (n - 55)%N
  else None.

Fixpoint hex_EncodeToString (src : bytes) : string :=
  match src with
  | [] => EmptyString
  | b :: rest =>
      String (hex_digit (Byte.to_N b / 16))
        (String (hex_digit (Byte.to_N b mod 16)) (hex_EncodeToString rest))
  end.

Fixpoint hex_DecodeString (s : string) : option bytes :=
  match s with
  | EmptyString => Some []
  | String _ EmptyString => None
  | String hi (String lo rest) =>
      match hex_value hi, hex_value lo with
      | Some h, Some l =>
          match Byte.of_N (16 * h + l), hex_DecodeString rest with
          | Some b, Some bs => Some (b :: bs)
          | _, _ => None
          end
      | _, _ => None
      end
  end.

(** *** DER framing

    [crypto_unit_test.go] shows both frames in full: [testPrivateKeyStr]
    is the Ed25519 PKCS#8 header followed by the 32-byte seed, and the key
    of [TestUnitPublicKeyFromPrivateKeyString] is the secp256k1 header
    followed by the 32-byte scalar. *)

Definition ed25519PrivateKeyPrefix : string := "302e020100300506032b657004220420".
Definition ecdsaPrivateKeyPrefix : string := "3030020100300706052b8104000a04220420".

Definition prefix_bytes (p : string) : bytes := default [] (hex_DecodeString p).

Definition derPrefix (s : KeyScheme) : string :=
  match s with
  | Ed25519 => ed25519PrivateKeyPrefix
  | ECDSAsecp256k1 => ecdsaPrivateKeyPrefix
  end.

(** Modelled from the spec: export (section 4.1, [export(raw|DER)]).
    [StringRaw] is the hex of the key bytes, [String] the hex of the DER
    frame, [BytesRaw] and [BytesDer] the same before hex encoding. *)
Definition BytesRaw (k : PrivateKey) : bytes := keyBytes k.
Definition BytesDer (k : PrivateKey) : bytes :=
  prefix_bytes (derPrefix (scheme k)) ++ keyBytes k.
Definition StringRaw (k : PrivateKey) : string := hex_EncodeToString (BytesRaw k).
Definition String_ (k : PrivateKey) : string := hex_EncodeToString (BytesDer k).

(** [has_frame p n bs]: [bs] is the header [p] followed by [n] more bytes. *)
Definition has_frame (p : bytes) (n : nat) (bs : bytes) : bool :=
  bool_decide (take (length p) bs = p) && bool_decide (length bs = length p + n).

Definition fromSeed (s : KeyScheme) (seed : bytes) : PrivateKey :=
  {| scheme := s; keyBytes := seed; chainCode := None |}.

(** Modelled from the spec: parsing (section 4.1) detects the framing by
    length and prefix.  A 64-byte Ed25519 input is seed followed by public
    key ([TestUnitPrivateKeyExternalSerializationForConcatenatedHex]); the
    seed is its first half. *)
Definition PrivateKeyFromBytesEd25519 (bs : bytes) : KeyError + PrivateKey :=
  let p := prefix_bytes ed25519PrivateKeyPrefix in
  if has_frame p 32 bs then inr (fromSeed Ed25519 (drop (length p) bs))
  else if bool_decide (length bs = 32) then inr (fromSeed Ed25519 bs)
  else if bool_decide (length bs = 64) then inr (fromSeed Ed25519 (take 32 bs))
  else inl InvalidKeyLength.

Definition PrivateKeyFromBytesECDSA (bs : bytes) : KeyError + PrivateKey :=
  let p := prefix_bytes ecdsaPrivateKeyPrefix in
  if has_frame p 32 bs then inr (fromSeed ECDSAsecp256k1 (drop (length p) bs))
  else if bool_decide (length bs = 32) then inr (fromSeed ECDSAsecp256k1 bs)
  else inl InvalidKeyLength.

(** The scheme-agnostic parser: a recognised DER frame selects the scheme,
    unframed bytes are read as Ed25519, a DER sequence (leading [0x30])
    with any other header is an unsupported scheme. *)
Definition PrivateKeyFromBytes (bs : bytes) : KeyError + PrivateKey :=
  if has_frame (prefix_bytes ed25519PrivateKeyPrefix) 32 bs
  then PrivateKeyFromBytesEd25519 bs
  else if has_frame (prefix_bytes ecdsaPrivateKeyPrefix) 32 bs
  then PrivateKeyFromBytesECDSA bs
  else if bool_decide (length bs = 32) || bool_decide (length bs = 64)
  then PrivateKeyFromBytesEd25519 bs
  else match bs with
       | x30 :: _ => inl UnsupportedScheme
       | _ => inl InvalidKeyLength
       end.

Definition fromHex (parse : bytes -> KeyError + PrivateKey) (s : string)
  : KeyError + PrivateKey :=
  match hex_DecodeString s with
  | Some bs => parse bs
  | None => inl MalformedHex
  end.

Definition PrivateKeyFromString : string -> KeyError + PrivateKey :=
  fromHex PrivateKeyFromBytes.
Definition PrivateKeyFromStringEd25519 : string -> KeyError + PrivateKey :=
  fromHex PrivateKeyFromBytesEd25519.
Definition PrivateKeyFromStringECSDA : string -> KeyError + PrivateKey :=
  fromHex PrivateKeyFromBytesECDSA.

(** Two keys carry the same key material: same scheme, same key bytes. *)
Definition same_material (k k' : PrivateKey) : Prop :=
  scheme k' = scheme k /\ keyBytes k' = keyBytes k.

(** The key of [testPrivateKeyStr]. *)
Definition testSeed : bytes :=
  prefix_bytes "db484b828e64b2d8f12ce3c0a0e93a0b8cce7af1bb8f39c97732394482538e10".

End Key.

(** ** Identifiers and amounts *)

(** Modelled from the spec: the entity identifiers are declared elsewhere
    in the repository.  Section 3 gives [{shard, realm, num, optional
    checksum}], the checksum being no part of identity; the tests build
    [AccountID{Account: 3}]. *)
Record AccountID : Type := mkAccountID {
  Shard : N;
  Realm : N;
  Account : N;
  checksum : option string
}.

#[global] Instance AccountID_eq_dec : EqDecision AccountID.
Proof. solve_decision. Defined.

Definition AccountID_zero : AccountID :=
  {| Shard := 0; Realm := 0; Account := 0; checksum := None |}.

(** Modelled from the spec: [equals] is defined elsewhere in the
    repository; it compares identity, of which the checksum is no part
    (section 3). *)
Definition equals (id other : AccountID) : bool :=
  (Shard id =? Shard other)%N && (Realm id =? Realm other)%N
  && (Account id =? Account other)%N.

(** [TokenID] is the key of the Go map [tokenIndexes]: a comparable value. *)
Record TokenID : Type := mkTokenID {
  TokenShard : N;
  TokenRealm : N;
  Token : N
}.

#[global] Instance TokenID_eq_dec : EqDecision TokenID.
Proof. solve_decision. Defined.

#[global] Instance TokenID_countable : Countable TokenID.
Proof.
  refine (inj_countable' (fun t => (TokenShard t, TokenRealm t, Token t))
            (fun p => mkTokenID p.1.1 p.1.2 p.2) _).
  intros []; reflexivity.
Defined.

(** [Hbar] wraps a signed 64-bit count of tinybars ([amount.tinybar]). *)
Record Hbar : Type := mkHbar { tinybar : Z }.

#[global] Instance Hbar_eq_dec : EqDecision Hbar.
Proof. solve_decision. Defined.

(** Modelled from the spec: [TransactionID] is declared elsewhere in the
    repository; section 3 gives [{payerAccountID, startTimestamp}], and the
    source reads its [AccountID] field. *)
Record TransactionID : Type := mkTransactionID {
  TransactionID_AccountID : AccountID;
  ValidStart : Z
}.

#[global] Instance TransactionID_eq_dec : EqDecision TransactionID.
Proof. solve_decision. Defined.

Definition TransactionID_zero : TransactionID :=
  {| TransactionID_AccountID := AccountID_zero; ValidStart := 0 |}.

(** Modelled from the spec: [TransactionIDGenerate] is defined elsewhere in
    the repository; section 4.4 makes a fresh id from the payer account and
    the current time.  The clock reading is passed in. *)
Definition TransactionIDGenerate (accountID : AccountID) (now : Z) : TransactionID :=
  {| TransactionID_AccountID := accountID; ValidStart := now |}.

Record TokenTransfer : Type := mkTokenTransfer {
  TokenTransfer_AccountID : AccountID;
  TokenTransfer_Amount : Z
}.

(** ** Wire messages (package [proto]) *)

Module proto.

Record AccountID : Type := mkAccountID {
  ShardNum : Z;
  RealmNum : Z;
  AccountNum : Z
}.

Record TokenID : Type := mkTokenID {
  TokenShardNum : Z;
  TokenRealmNum : Z;
  TokenNum : Z
}.

Record AccountAmount : Type := mkAccountAmount {
  AccountAmount_AccountID : AccountID;
  Amount : Z
}.

Record TransferList : Type := mkTransferList {
  AccountAmounts : list AccountAmount
}.

Record TokenTransferList : Type := mkTokenTransferList {
  TokenTransferList_Token : TokenID;
  TokenTransferList_Transfers : list AccountAmount
}.

Record CryptoTransferTransactionBody : Type := mkCryptoTransferTransactionBody {
  Transfers : TransferList;
  TokenTransfers : list TokenTransferList
}.

(** One entry of a signature map: keyed by the signer's public key bytes,
    carrying the scheme tag and the raw signature. *)
Record SignaturePair : Type := mkSignaturePair {
  PubKeyPrefix : bytes;
  SignatureScheme : Key.KeyScheme;
  Signature : bytes
}.

Record SignatureMap : Type := mkSignatureMap {
  SigPair : list SignaturePair
}.

(** The per-node wire transaction; [GetBodyBytes] is its getter. *)
Record Transaction : Type := mkTransaction {
  BodyBytes : bytes
}.

Definition GetBodyBytes (t : Transaction) : bytes := BodyBytes t.

(** The [Data] slot of a transaction body.  [onFreeze] stores in it a
    pointer to the transfer transaction's own [pb]: the slot is a tag, and
    the message it points to is read from the owner when serialized. *)
Inductive TransactionBody_Data : Type :=
| TransactionBody_CryptoTransfer.

Record TransactionBody : Type := mkTransactionBody {
  TransactionID : option TransactionID;
  NodeAccountID : option AccountID;
  TransactionFee : option Hbar;
  TransactionValidDuration : Z;
  Memo : string;
  Data : option TransactionBody_Data
}.

End proto.

#[global] Instance SignaturePair_eq_dec : EqDecision proto.SignaturePair.
Proof. solve_decision. Defined.

(** ** Errors and panics *)

Inductive Error : Type :=
| errNoClientOrTransactionID
| errNoClientOrNodeID
| errClientOperatorSigning
| errExecution (message : string).

Inductive PanicValue : Type :=
| TransactionIsFrozen
| IndexOutOfRange (index len : nat)
| NilPointerDereference.

(** ** The client context *)

Definition TransactionSigner := bytes -> bytes.

Record Operator : Type := mkOperator {
  accountID : AccountID;
  publicKey : Key.PublicKey;
  signer : TransactionSigner
}.

(** Modelled from the spec: the client context of section 6 (operator
    identity and signer, healthy nodes, default max fee), with the reading
    of the clock taken when the context is used.  [client.operator] is a
    pointer that may be nil ([SignWithOperator] tests it). *)
Record Client : Type := mkClient {
  operator : option Operator;
  healthyNodeAccountIDs : list AccountID;
  defaultMaxTransactionFee : option Hbar;
  currentTime : Z
}.

(** Modelled from the spec: [GetOperatorAccountID] and
    [GetOperatorPublicKey] are defined elsewhere in the repository; they
    answer the operator's account and key, and the zero value of the type
    when the client has no operator. *)
Definition GetOperatorAccountID (client : Client) : AccountID :=
  match operator client with
  | Some op => accountID op
  | None => AccountID_zero
  end.

Definition PublicKey_zero : Key.PublicKey :=
  {| Key.pubScheme := Key.Ed25519; Key.pubBytes := [] |}.

Definition GetOperatorPublicKey (client : Client) : Key.PublicKey :=
  match operator client with
  | Some op => publicKey op
  | None => PublicKey_zero
  end.

(** ** The embedded [Transaction] and the [TransferTransaction] *)

(** Modelled from the spec: the embedded [Transaction] struct is declared
    elsewhere in the repository.  The source names its fields [pbBody],
    [id], [transactions] and [signatures]; section 3 adds the candidate node
    list and the [frozen] flag, and puts fee, memo, valid duration and
    transaction id among the body fields. *)
Record Transaction : Type := mkTransaction {
  pbBody : proto.TransactionBody;
  id : TransactionID;
  nodeIDs : list AccountID;
  transactions : list proto.Transaction;
  signatures : list proto.SignatureMap;
  frozen : bool
}.

Record TransferTransaction : Type := mkTransferTransaction {
  Transaction_ : Transaction;
  pb : proto.CryptoTransferTransactionBody;
  tokenIndexes : gmap TokenID nat
}.

Record TransactionResponse : Type := mkTransactionResponse {
  TransactionResponse_TransactionID : TransactionID;
  NodeID : AccountID
}.

(** ** Collaborators that stay abstract

    Conversions to and from the wire types, protobuf serialization, the
    zero test of an account id, key operations and the execution engine are
    called by the source but defined elsewhere; they are taken as an
    interface.  The one law used is that a [TokenID] survives the trip to its
    wire form and back. *)
Class Collaborators : Type := {
  AccountID_toProtobuf : AccountID -> proto.AccountID;
  TokenID_toProtobuf : TokenID -> proto.TokenID;
  tokenIDFromProtobuf : proto.TokenID -> TokenID;
  tokenTransferFromProtobuf : proto.AccountAmount -> TokenTransfer;
  tokenID_roundtrip : forall t, tokenIDFromProtobuf (TokenID_toProtobuf t) = t;
  (** the method [isZero] of an account id, which [Execute] tests on the
      operator account; nothing is assumed of it *)
  isZero : AccountID -> bool;
  (** [protobuf.Marshal] of a body whose [Data] pointer is resolved against
      the owner's [pb] *)
  protobuf_Marshal :
    proto.TransactionBody -> proto.CryptoTransferTransactionBody -> bytes;
  (** the default max fee of the operation type *)
  operationDefaultMaxFee : Hbar;
  (** the valid duration a new transaction starts with *)
  initialValidDuration : Z;
  PrivateKey_PublicKey : Key.PrivateKey -> Key.PublicKey;
  PrivateKey_Sign : Key.PrivateKey -> bytes -> bytes;
  (** the execution engine, as far as [Execute] uses it: given the client
      and the frozen transaction it answers with the node that accepted it,
      or an error; what else the engine does is outside this development *)
  execute : Client -> Transaction -> Error + AccountID
}.

(** ** State and panic monad

    A method on a pointer receiver is a function from the receiver's state
    to an outcome: it returns normally with a value and the new state, or it
    panics, leaving the state as it was when the panic was raised. *)

Inductive outcome (S A : Type) : Type :=
| Normal (a : A) (s : S)
| Panic (p : PanicValue) (s : S).
Arguments Normal {S A} a s.
Arguments Panic {S A} p s.

Definition M (S A : Type) : Type := S -> outcome S A.

#[global] Instance M_ret {S} : MRet (M S) := fun A a s => Normal a s.

#[global] Instance M_bind {S} : MBind (M S) := fun A B f m s =>
  match m s with
  | Normal a s' => f a s'
  | Panic p s' => Panic p s'
  end.

Definition get {S} : M S S := fun s => Normal s s.
Definition put {S} (s : S) : M S unit := fun _ => Normal tt s.
Definition modify {S} (f : S -> S) : M S unit := fun s => Normal tt (f s).
Definition panic {S A} (p : PanicValue) : M S A := fun s => Panic p s.

(** The state an outcome ends in, whichever way it ends. *)
Definition final_state {S A} (o : outcome S A) : S :=
  match o with
  | Normal _ s => s
  | Panic _ s => s
  end.

(** Run a method of the embedded [Transaction] on a [TransferTransaction]. *)
Definition set_Transaction (b : Transaction) (t : TransferTransaction)
  : TransferTransaction :=
  {| Transaction_ := b; pb := pb t; tokenIndexes := tokenIndexes t |}.

Definition embedded {A} (m : M Transaction A) : M TransferTransaction A :=
  fun t =>
    match m (Transaction_ t) with
    | Normal a b => Normal a (set_Transaction b t)
    | Panic p b => Panic p (set_Transaction b t)
    end.

Section Operations.

Context `{Collaborators}.

(** *** The embedded [Transaction] *)

(** Modelled from the spec: [newTransaction] is defined elsewhere in the
    repository; a new transaction is mutable, with nothing set. *)
Definition newTransaction : Transaction :=
  {| pbBody := {| proto.TransactionID := None;
                  proto.NodeAccountID := None;
                  proto.TransactionFee := None;
                  proto.TransactionValidDuration := initialValidDuration;
                  proto.Memo := "";
                  proto.Data := None |};
     id := TransactionID_zero;
     nodeIDs := [];
     transactions := [];
     signatures := [];
     frozen := false |}.

Definition set_pbBody (f : proto.TransactionBody -> proto.TransactionBody)
    (t : Transaction) : Transaction :=
  {| pbBody := f (pbBody t); id := id t; nodeIDs := nodeIDs t;
     transactions := transactions t; signatures := signatures t;
     frozen := frozen t |}.

Definition set_id (i : TransactionID) (t : Transaction) : Transaction :=
  {| pbBody := pbBody t; id := i; nodeIDs := nodeIDs t;
     transactions := transactions t; signatures := signatures t;
     frozen := frozen t |}.

Definition set_nodeIDs (l : list AccountID) (t : Transaction) : Transaction :=
  {| pbBody := pbBody t; id := id t; nodeIDs := l;
     transactions := transactions t; signatures := signatures t;
     frozen := frozen t |}.

Definition set_signatures (l : list proto.SignatureMap) (t : Transaction)
  : Transaction :=
  {| pbBody := pbBody t; id := id t; nodeIDs := nodeIDs t;
     transactions := transactions t; signatures := l;
     frozen := frozen t |}.

(** Modelled from the spec: [isFrozen] is defined elsewhere in the
    repository; it reads the [frozen] flag of section 3. *)
Definition isFrozen (t : Transaction) : bool := frozen t.

(** Modelled from the spec: [requireNotFrozen] is defined elsewhere in the
    repository; section 4.4 has every setter on a transaction that
    is no longer mutable fail with [TransactionIsFrozen].  The setters
    return no error value, so the failure is a panic. *)
Definition requireNotFrozen : M Transaction unit :=
  fun t => if isFrozen t then Panic TransactionIsFrozen t else Normal tt t.

(** Modelled from the spec: the setters of the embedded [Transaction] are
    defined elsewhere in the repository; each stores its argument in the
    corresponding field (section 4.4, "setters mutate body fields"). *)
Definition Transaction_SetMaxTransactionFee (fee : Hbar) : M Transaction unit :=
  modify (set_pbBody (fun b =>
    {| proto.TransactionID := proto.TransactionID b;
       proto.NodeAccountID := proto.NodeAccountID b;
       proto.TransactionFee := Some fee;
       proto.TransactionValidDuration := proto.TransactionValidDuration b;
       proto.Memo := proto.Memo b;
       proto.Data := proto.Data b |})).

Definition Transaction_SetTransactionMemo (memo : string) : M Transaction unit :=
  modify (set_pbBody (fun b =>
    {| proto.TransactionID := proto.TransactionID b;
       proto.NodeAccountID := proto.NodeAccountID b;
       proto.TransactionFee := proto.TransactionFee b;
       proto.TransactionValidDuration := proto.TransactionValidDuration b;
       proto.Memo := memo;
       proto.Data := proto.Data b |})).

Definition Transaction_SetTransactionValidDuration (duration : Z)
  : M Transaction unit :=
  modify (set_pbBody (fun b =>
    {| proto.TransactionID := proto.TransactionID b;
       proto.NodeAccountID := proto.NodeAccountID b;
       proto.TransactionFee := proto.TransactionFee b;
       proto.TransactionValidDuration := duration;
       proto.Memo := proto.Memo b;
       proto.Data := proto.Data b |})).

Definition Transaction_SetTransactionID (transactionID : TransactionID)
  : M Transaction unit :=
  modify (set_pbBody (fun b =>
    {| proto.TransactionID := Some transactionID;
       proto.NodeAccountID := proto.NodeAccountID b;
       proto.TransactionFee := proto.TransactionFee b;
       proto.TransactionValidDuration := proto.TransactionValidDuration b;
       proto.Memo := proto.Memo b;
       proto.Data := proto.Data b |})).

Definition Transaction_SetNodeAccountIDs (nodeID : list AccountID)
  : M Transaction unit :=
  modify (set_nodeIDs nodeID).

Definition set_Data (d : option proto.TransactionBody_Data)
    (b : proto.TransactionBody) : proto.TransactionBody :=
  {| proto.TransactionID := proto.TransactionID b;
     proto.NodeAccountID := proto.NodeAccountID b;
     proto.TransactionFee := proto.TransactionFee b;
     proto.TransactionValidDuration := proto.TransactionValidDuration b;
     proto.Memo := proto.Memo b;
     proto.Data := d |}.

Definition set_NodeAccountID (n : proto.AccountID)
    (b : proto.TransactionBody) : proto.TransactionBody :=
  {| proto.TransactionID := proto.TransactionID b;
     proto.NodeAccountID := Some n;
     proto.TransactionFee := proto.TransactionFee b;
     proto.TransactionValidDuration := proto.TransactionValidDuration b;
     proto.Memo := proto.Memo b;
     proto.Data := proto.Data b |}.

(** Modelled from the spec: [initFee] is defined elsewhere in the
    repository.  Section 4.4: if the max fee is unset, Freeze computes the
    default, the client-wide override when there is one and the default of
    the operation type otherwise. *)
Definition defaultFee (client : option Client) : Hbar :=
  match client with
  | Some c => default operationDefaultMaxFee (defaultMaxTransactionFee c)
  | None => operationDefaultMaxFee
  end.

Definition initFee (client : option Client) : M Transaction unit :=
  t ← get;
  match proto.TransactionFee (pbBody t) with
  | Some _ => mret tt
  | None => Transaction_SetMaxTransactionFee (defaultFee client)
  end.

(** Modelled from the spec: [initTransactionID] is defined elsewhere in the
    repository.  Section 4.4: if the transaction id is unset, Freeze
    makes a fresh one from the context's payer account and the current
    time.  Without a context, or without an operator in it, there is no
    payer and the call reports an error.  The [id] field follows the body
    field, as in [SetTransactionID] of the source. *)
Definition initTransactionID (client : option Client)
  : M Transaction (option Error) :=
  t ← get;
  match proto.TransactionID (pbBody t) with
  | Some _ => mret None
  | None =>
      match client with
      | Some c =>
          match operator c with
          | Some op =>
              let fresh := TransactionIDGenerate (accountID op) (currentTime c) in
              modify (set_id fresh);;
              Transaction_SetTransactionID fresh;;
              mret None
          | None => mret (Some errNoClientOrTransactionID)
          end
      | None => mret (Some errNoClientOrTransactionID)
      end
  end.

(** The wire transaction for one candidate node: the body with that
    node's account embedded, serialized. *)
Definition bodyFor (body : proto.TransactionBody)
    (data : proto.CryptoTransferTransactionBody) (node : AccountID)
  : proto.Transaction :=
  {| proto.BodyBytes :=
       protobuf_Marshal (set_NodeAccountID (AccountID_toProtobuf node) body) data |}.

Definition emptySignatureMap : proto.SignatureMap := {| proto.SigPair := [] |}.

(** Modelled from the spec: [transaction_freezeWith] is defined elsewhere
    in the repository.  Section 4.4: Freeze resolves the candidate node
    list (the explicit one, or else the context's healthy nodes), and
    serializes one wire body per candidate node, each with an empty
    signature map beside it; on a transaction that is frozen already it is
    a no-op.  With neither explicit nodes nor a context there is nothing
    to resolve and the call reports an error.  [data] is the message the
    body's [Data] pointer refers to. *)
Definition resolveNodes (client : option Client) (t : Transaction)
  : option (list AccountID) :=
  match nodeIDs t with
  | [] => healthyNodeAccountIDs <$> client
  | _ :: _ => Some (nodeIDs t)
  end.

Definition transaction_freezeWith (data : proto.CryptoTransferTransactionBody)
    (client : option Client) : M Transaction (option Error) :=
  t ← get;
  if isFrozen t then mret None
  else match resolveNodes client t with
       | None => mret (Some errNoClientOrNodeID)
       | Some nodes =>
           put {| pbBody := pbBody t;
                  id := id t;
                  nodeIDs := nodes;
                  transactions := bodyFor (pbBody t) data <$> nodes;
                  signatures := (fun _ => emptySignatureMap) <$> nodes;
                  frozen := true |};;
           mret None
       end.

(** Modelled from the spec: [toSignaturePairProtobuf] is defined elsewhere
    in the repository; a signature entry is keyed by the public key bytes
    and carries the scheme tag and the raw signature (section 6). *)
Definition toSignaturePairProtobuf (publicKey : Key.PublicKey) (signature : bytes)
  : proto.SignaturePair :=
  {| proto.PubKeyPrefix := Key.pubBytes publicKey;
     proto.SignatureScheme := Key.pubScheme publicKey;
     proto.Signature := signature |}.

(** The signer an entry belongs to. *)
Definition signerOf (p : proto.SignaturePair) : Key.PublicKey :=
  {| Key.pubScheme := proto.SignatureScheme p; Key.pubBytes := proto.PubKeyPrefix p |}.

Definition signedBy (publicKey : Key.PublicKey) (m : proto.SignatureMap) : bool :=
  existsb (fun p => bool_decide (signerOf p = publicKey)) (proto.SigPair m).

(** Modelled from the spec: [keyAlreadySigned] is defined elsewhere in the
    repository; section 4.4: "if that public key already signed", so
    the key is looked for in the signature maps of the transaction. *)
Definition keyAlreadySigned (publicKey : Key.PublicKey) (t : Transaction) : bool :=
  existsb (signedBy publicKey) (signatures t).

(** *** [transfer_transaction.go] *)

Definition NewTransferTransaction : TransferTransaction :=
  {| pb := {| proto.Transfers := {| proto.AccountAmounts := [] |};
              proto.TokenTransfers := [] |};
     Transaction_ := newTransaction;
     tokenIndexes := ∅ |}.

Definition set_pb (p : proto.CryptoTransferTransactionBody)
    (t : TransferTransaction) : TransferTransaction :=
  {| Transaction_ := Transaction_ t; pb := p; tokenIndexes := tokenIndexes t |}.

Definition set_tokenIndexes (m : gmap TokenID nat)
    (t : TransferTransaction) : TransferTransaction :=
  {| Transaction_ := Transaction_ t; pb := pb t; tokenIndexes := m |}.

(** [tokenTransferMap[token] = append(tokenTransferMap[token], x)] *)
Definition appendAt (token : TokenID) (x : TokenTransfer)
    (m : gmap TokenID (list TokenTransfer)) : gmap TokenID (list TokenTransfer) :=
  <[token := default [] (m !! token) ++ [x]]> m.

Definition GetTokenTransfers (t : TransferTransaction)
  : gmap TokenID (list TokenTransfer) :=
  foldl (fun m tokenTransfer =>
           foldl (fun m accountAmount =>
                    let token :=
                      tokenIDFromProtobuf (proto.TokenTransferList_Token tokenTransfer) in
                    appendAt token (tokenTransferFromProtobuf accountAmount) m)
                 m (proto.TokenTransferList_Transfers tokenTransfer))
        ∅ (proto.TokenTransfers (pb t)).

Definition AddHbarTransfer (accountID : AccountID) (amount : Hbar)
  : M TransferTransaction unit :=
  embedded requireNotFrozen;;
  modify (fun t => set_pb
    {| proto.Transfers :=
         {| proto.AccountAmounts :=
              proto.AccountAmounts (proto.Transfers (pb t)) ++
              [ {| proto.AccountAmount_AccountID := AccountID_toProtobuf accountID;
                   proto.Amount := tinybar amount |} ] |};
       proto.TokenTransfers := proto.TokenTransfers (pb t) |} t).

Definition set_TokenTransfers (l : list proto.TokenTransferList)
    (t : TransferTransaction) : TransferTransaction :=
  set_pb {| proto.Transfers := proto.Transfers (pb t); proto.TokenTransfers := l |} t.

Definition appendTransfer (accountAmount : proto.AccountAmount)
    (l : proto.TokenTransferList) : proto.TokenTransferList :=
  {| proto.TokenTransferList_Token := proto.TokenTransferList_Token l;
     proto.TokenTransferList_Transfers :=
       proto.TokenTransferList_Transfers l ++ [accountAmount] |}.

Definition AddTokenTransfer (tokenID : TokenID) (accountID : AccountID) (value : Z)
  : M TransferTransaction unit :=
  embedded requireNotFrozen;;
  let accountAmount :=
    {| proto.AccountAmount_AccountID := AccountID_toProtobuf accountID;
       proto.Amount := value |} in
  t ← get;
  match tokenIndexes t !! tokenID with
  | Some index =>
      match proto.TokenTransfers (pb t) !! index with
      | Some l =>
          put (set_TokenTransfers
                 (<[index := appendTransfer accountAmount l]> (proto.TokenTransfers (pb t)))
                 t)
      | None => panic (IndexOutOfRange index (length (proto.TokenTransfers (pb t))))
      end
  | None =>
      put (set_TokenTransfers
             (proto.TokenTransfers (pb t) ++
              [ {| proto.TokenTransferList_Token := TokenID_toProtobuf tokenID;
                   proto.TokenTransferList_Transfers := [accountAmount] |} ])
             (set_tokenIndexes
                (<[tokenID := length (proto.TokenTransfers (pb t))]> (tokenIndexes t))
                t))
  end.

Definition IsFrozen : M TransferTransaction bool :=
  t ← get; mret (isFrozen (Transaction_ t)).

(** [onFreeze] points the body's [Data] at the transfer message and
    answers [true]. *)
Definition onFreeze : M TransferTransaction bool :=
  embedded (modify (set_pbBody (set_Data (Some proto.TransactionBody_CryptoTransfer))));;
  mret true.

Definition FreezeWith (client : option Client) : M TransferTransaction (option Error) :=
  embedded (initFee client);;
  err ← embedded (initTransactionID client);
  match err with
  | Some e => mret (Some e)
  | None =>
      ok ← onFreeze;
      if negb ok then mret None
      else t ← get; embedded (transaction_freezeWith (pb t) client)
  end.

Definition Freeze : M TransferTransaction (option Error) := FreezeWith None.

(** The loop of [SignWith], one step per index below
    [len(transaction.transactions)]. *)
Fixpoint signEach (publicKey : Key.PublicKey) (signer : TransactionSigner)
    (indexes : list nat) : M Transaction unit :=
  match indexes with
  | [] => mret tt
  | index :: rest =>
      t ← get;
      match transactions t !! index with
      | None => panic (IndexOutOfRange index (length (transactions t)))
      | Some body =>
          let signature := signer (proto.GetBodyBytes body) in
          match signatures t !! index with
          | None => panic (IndexOutOfRange index (length (signatures t)))
          | Some sigMap =>
              put (set_signatures
                     (<[index := {| proto.SigPair :=
                                      proto.SigPair sigMap ++
                                      [toSignaturePairProtobuf publicKey signature] |}]>
                        (signatures t))
                     t);;
              signEach publicKey signer rest
          end
      end
  end.

Definition SignWith (publicKey : Key.PublicKey) (signer : TransactionSigner)
  : M TransferTransaction unit :=
  isfrozen ← IsFrozen;
  (if negb isfrozen then Freeze;; mret tt else mret tt);;
  t ← get;
  if keyAlreadySigned publicKey (Transaction_ t) then mret tt
  else embedded (signEach publicKey signer (seq 0 (length (transactions (Transaction_ t))))).

Definition Sign (privateKey : Key.PrivateKey) : M TransferTransaction unit :=
  SignWith (PrivateKey_PublicKey privateKey) (PrivateKey_Sign privateKey).

Definition SignWithOperator (client : option Client)
  : M TransferTransaction (option Error) :=
  match client with
  | None => panic NilPointerDereference
  | Some c =>
      match operator c with
      | None => mret (Some errClientOperatorSigning)
      | Some op =>
          isfrozen ← IsFrozen;
          (if negb isfrozen then FreezeWith client;; mret tt else mret tt);;
          SignWith (publicKey op) (signer op);;
          mret None
      end
  end.

(** [Execute], lines 137 to 148: freeze if needed, then sign for the
    operator when the operator pays. *)
Definition Execute_autoSign (client : option Client) : M TransferTransaction unit :=
  isfrozen ← IsFrozen;
  (if negb isfrozen then FreezeWith client;; mret tt else mret tt);;
  t ← get;
  let transactionID := id (Transaction_ t) in
  match client with
  | None => panic NilPointerDereference
  | Some c =>
      if negb (isZero (GetOperatorAccountID c))
         && equals (GetOperatorAccountID c) (TransactionID_AccountID transactionID)
      then match operator c with
           | None => panic NilPointerDereference
           | Some op => SignWith (GetOperatorPublicKey c) (signer op)
           end
      else mret tt
  end.

(** [Execute], lines 150 to 171: hand the transaction to the engine and
    build the response. *)
Definition Execute_dispatch (client : option Client)
  : M TransferTransaction (Error + TransactionResponse) :=
  t ← get;
  match client with
  | None => panic NilPointerDereference
  | Some c =>
      match execute c (Transaction_ t) with
      | inl err => mret (inl err)
      | inr node =>
          mret (inr {| TransactionResponse_TransactionID := id (Transaction_ t);
                       NodeID := node |})
      end
  end.

Definition Execute (client : option Client)
  : M TransferTransaction (Error + TransactionResponse) :=
  Execute_autoSign client;; Execute_dispatch client.

(** The remaining setters of [transfer_transaction.go]. *)
Definition SetMaxTransactionFee (fee : Hbar) : M TransferTransaction unit :=
  embedded requireNotFrozen;;
  embedded (Transaction_SetMaxTransactionFee fee).

Definition SetTransactionMemo (memo : string) : M TransferTransaction unit :=
  embedded requireNotFrozen;;
  embedded (Transaction_SetTransactionMemo memo).

Definition SetTransactionValidDuration (duration : Z) : M TransferTransaction unit :=
  embedded requireNotFrozen;;
  embedded (Transaction_SetTransactionValidDuration duration).

Definition SetTransactionID (transactionID : TransactionID)
  : M TransferTransaction unit :=
  embedded requireNotFrozen;;
  embedded (modify (set_id transactionID));;
  embedded (Transaction_SetTransactionID transactionID).

Definition SetNodeAccountIDs (nodeID : list AccountID) : M TransferTransaction unit :=
  embedded requireNotFrozen;;
  embedded (Transaction_SetNodeAccountIDs nodeID).

End Operations.

(** ** Call sequences and reachable transactions

    The fields of a transaction are unexported: a caller obtains one from
    [NewTransferTransaction] and changes it through the methods only. *)

Inductive call : Type :=
| CallAddHbarTransfer (accountID : AccountID) (amount : Hbar)
| CallAddTokenTransfer (tokenID : TokenID) (accountID : AccountID) (value : Z)
| CallSetMaxTransactionFee (fee : Hbar)
| CallSetTransactionMemo (memo : string)
| CallSetTransactionValidDuration (duration : Z)
| CallSetTransactionID (transactionID : TransactionID)
| CallSetNodeAccountIDs (nodeID : list AccountID)
| CallFreezeWith (client : option Client)
| CallSignWith (publicKey : Key.PublicKey) (signer : TransactionSigner)
| CallSign (privateKey : Key.PrivateKey)
| CallSignWithOperator (client : option Client)
| CallExecute (client : option Client).

Section Reachability.

Context `{Collaborators}.

(** The transaction a call leaves behind, whether it returned or
    panicked. *)
Definition run (c : call) (t : TransferTransaction) : TransferTransaction :=
  match c with
  | CallAddHbarTransfer a h => final_state (AddHbarTransfer a h t)
  | CallAddTokenTransfer k a v => final_state (AddTokenTransfer k a v t)
  | CallSetMaxTransactionFee fee => final_state (SetMaxTransactionFee fee t)
  | CallSetTransactionMemo memo => final_state (SetTransactionMemo memo t)
  | CallSetTransactionValidDuration d => final_state (SetTransactionValidDuration d t)
  | CallSetTransactionID i => final_state (SetTransactionID i t)
  | CallSetNodeAccountIDs l => final_state (SetNodeAccountIDs l t)
  | CallFreezeWith client => final_state (FreezeWith client t)
  | CallSignWith pk signer => final_state (SignWith pk signer t)
  | CallSign k => final_state (Sign k t)
  | CallSignWithOperator client => final_state (SignWithOperator client t)
  | CallExecute client => final_state (Execute client t)
  end.

Inductive reachable : TransferTransaction -> Prop :=
| reachable_new : reachable NewTransferTransaction
| reachable_call c t : reachable t -> reachable (run c t).

(** The signers of a signature map, in order of signing, and the entries
    one signer has in it. *)
Definition signersOf (m : proto.SignatureMap) : list Key.PublicKey :=
  signerOf <$> proto.SigPair m.

Definition entriesOf (publicKey : Key.PublicKey) (m : proto.SignatureMap)
  : list proto.SignaturePair :=
  filter (fun p => signerOf p = publicKey) (proto.SigPair m).

(** The signature maps of a transaction are index-aligned with its
    per-node bodies and all list the same signers, none of them twice. *)
Definition signatures_wf (b : Transaction) : Prop :=
  length (signatures b) = length (transactions b) /\
  exists ks, NoDup ks /\ Forall (fun m => signersOf m = ks) (signatures b).

(** A frozen transaction has its fee, its id and its data slot set. *)
Definition frozen_wf (b : Transaction) : Prop :=
  frozen b = true ->
  is_Some (proto.TransactionFee (pbBody b)) /\
  is_Some (proto.TransactionID (pbBody b)) /\
  proto.Data (pbBody b) = Some proto.TransactionBody_CryptoTransfer.

(** A transaction that is not frozen has no per-node bodies yet. *)
Definition mutable_wf (b : Transaction) : Prop :=
  frozen b = false -> transactions b = [] /\ signatures b = [].

(** What one round of the loop of [SignWith] does to the signature map
    beside a body, and what the whole loop does to all of them. *)
Definition addSignature (publicKey : Key.PublicKey) (signer : TransactionSigner)
    (body : proto.Transaction) (m : proto.SignatureMap) : proto.SignatureMap :=
  {| proto.SigPair :=
       proto.SigPair m ++
       [toSignaturePairProtobuf publicKey (signer (proto.GetBodyBytes body))] |}.

Definition signAll (publicKey : Key.PublicKey) (signer : TransactionSigner)
    (b : Transaction) : list proto.SignatureMap :=
  zip_with (addSignature publicKey signer) (transactions b) (signatures b).

(** The token of a token transfer list, and the tokens of all the lists of
    a transaction, in order. *)
Definition tokenOf (tt : proto.TokenTransferList) : TokenID :=
  tokenIDFromProtobuf (proto.TokenTransferList_Token tt).

Definition tokensOf (t : TransferTransaction) : list TokenID :=
  tokenOf <$> proto.TokenTransfers (pb t).

(** [tokenIndexes] is the inverse of [tokensOf], which has no
    duplicates. *)
Definition tokens_wf (t : TransferTransaction) : Prop :=
  NoDup (tokensOf t) /\
  forall k i, tokenIndexes t !! k = Some i <-> tokensOf t !! i = Some k.

Definition wf (t : TransferTransaction) : Prop :=
  signatures_wf (Transaction_ t) /\ frozen_wf (Transaction_ t) /\
  mutable_wf (Transaction_ t) /\ tokens_wf t.

(** [n] calls of [AddTokenTransfer] for one token, one per element of
    [calls]. *)
Definition addTokenTransfers (tokenID : TokenID) (calls : list (AccountID * Z))
    (t : TransferTransaction) : TransferTransaction :=
  foldl (fun t c => final_state (AddTokenTransfer tokenID c.1 c.2 t)) t calls.

(** The entry [GetTokenTransfers] shows for one call. *)
Definition transferOf (c : AccountID * Z) : TokenTransfer :=
  tokenTransferFromProtobuf
    {| proto.AccountAmount_AccountID := AccountID_toProtobuf c.1;
       proto.Amount := c.2 |}.

(** The transfers recorded for token [k], read off the lists directly. *)
Definition entriesFor (k : TokenID) (l : list proto.TokenTransferList)
  : list TokenTransfer :=
  l ≫= (fun tt =>
          if decide (tokenOf tt = k)
          then tokenTransferFromProtobuf <$> proto.TokenTransferList_Transfers tt
          else []).

(** A sequence of calls, run in order. *)
Definition runAll (calls : list call) (t : TransferTransaction)
  : TransferTransaction :=
  foldl (fun t c => run c t) t calls.

(** A map entry [o] after the transfers [xs] have been appended to it one
    by one. *)
Definition joinEntries (o : option (list TokenTransfer)) (xs : list TokenTransfer)
  : option (list TokenTransfer) :=
  match xs with
  | [] => o
  | _ :: _ => Some (default [] o ++ xs)
  end.

End Reachability.

(** ** Runs of the two transfer setters, and measures of their effect *)

(** The calls that write to the transfer body. *)
Definition changesTransfers (c : call) : bool :=
  match c with
  | CallAddHbarTransfer _ _ | CallAddTokenTransfer _ _ _ => true
  | _ => false
  end.

Section Sequences.

Context `{Collaborators}.

(** A run of [AddTokenTransfer] calls, for any tokens, in order. *)
Definition addTokenCalls (calls : list (TokenID * AccountID * Z))
    (t : TransferTransaction) : TransferTransaction :=
  foldl (fun t c => final_state (AddTokenTransfer c.1.1 c.1.2 c.2 t)) t calls.

(** The entries the calls of a run that name token [k] stand for, in call
    order. *)
Definition callsFor (k : TokenID) (calls : list (TokenID * AccountID * Z))
  : list TokenTransfer :=
  (fun c => transferOf (c.1.2, c.2)) <$> filter (fun c => c.1.1 = k) calls.

(** A run of [AddHbarTransfer] calls, in order, and the wire entry one call
    appends. *)
Definition addHbarTransfers (calls : list (AccountID * Hbar))
    (t : TransferTransaction) : TransferTransaction :=
  foldl (fun t c => final_state (AddHbarTransfer c.1 c.2 t)) t calls.

Definition hbarAmount (c : AccountID * Hbar) : proto.AccountAmount :=
  {| proto.AccountAmount_AccountID := AccountID_toProtobuf c.1;
     proto.Amount := tinybar c.2 |}.

(** The number of transfers in a result of [GetTokenTransfers], and in the
    token transfer lists it is computed from. *)
Definition entryCount (m : gmap TokenID (list TokenTransfer)) : nat :=
  map_fold (fun _ l n => length l + n) 0 m.

Definition transferCount (l : list proto.TokenTransferList) : nat :=
  sum_list ((fun tt => length (proto.TokenTransferList_Transfers tt)) <$> l).

(** Every token transfer list holds at least one transfer. *)
Definition lists_nonempty (t : TransferTransaction) : Prop :=
  Forall (fun tt => proto.TokenTransferList_Transfers tt <> [])
         (proto.TokenTransfers (pb t)).

End Sequences.

(** ** A concrete instance of the collaborators, and sample inputs *)

Module Sample.

Definition toyCollaborators : Collaborators.
Proof.
  refine
    {| AccountID_toProtobuf a :=
         proto.mkAccountID (Z.of_N (Shard a)) (Z.of_N (Realm a)) (Z.of_N (Account a));
       TokenID_toProtobuf t :=
         proto.mkTokenID (Z.of_N (TokenShard t)) (Z.of_N (TokenRealm t)) (Z.of_N (Token t));
       tokenIDFromProtobuf p :=
         mkTokenID (Z.to_N (proto.TokenShardNum p)) (Z.to_N (proto.TokenRealmNum p))
                   (Z.to_N (proto.TokenNum p));
       tokenTransferFromProtobuf aa :=
         let a := proto.AccountAmount_AccountID aa in
         mkTokenTransfer
           (mkAccountID (Z.to_N (proto.ShardNum a)) (Z.to_N (proto.RealmNum a))
                        (Z.to_N (proto.AccountNum a)) None)
           (proto.Amount aa);
       protobuf_Marshal body data :=
         match proto.NodeAccountID body with
         | Some n => repeat x01 (Z.to_nat (proto.AccountNum n))
         | None => []
         end;
       isZero a := (Shard a =? 0)%N && (Realm a =? 0)%N && (Account a =? 0)%N;
       operationDefaultMaxFee := mkHbar 100000000;
       initialValidDuration := 120;
       PrivateKey_PublicKey k := Key.mkPublicKey (Key.scheme k) (Key.keyBytes k);
       PrivateKey_Sign k message := Key.keyBytes k ++ message;
       execute c t :=
         match nodeIDs t with
         | node :: _ => inr node
         | [] => inl (errExecution "no node")
         end |}.
  intros [s r n]; simpl. by rewrite !N2Z.id.
Defined.

Definition account (n : N) : AccountID := mkAccountID 0 0 n None.
Definition token (n : N) : TokenID := mkTokenID 0 0 n.

Definition operatorKey : Key.PublicKey := Key.mkPublicKey Key.Ed25519 [x01; x02].
Definition otherKey : Key.PublicKey := Key.mkPublicKey Key.Ed25519 [x03].
Definition toySigner : TransactionSigner := fun message => x2a :: message.

Definition sampleOperator : Operator :=
  {| accountID := account 1001; publicKey := operatorKey; signer := toySigner |}.

(** A client with an operator and three healthy nodes. *)
Definition sampleClient : Client :=
  {| operator := Some sampleOperator;
     healthyNodeAccountIDs := [account 3; account 4; account 5];
     defaultMaxTransactionFee := Some (mkHbar 200000000);
     currentTime := 1600000000 |}.

(** A client that has no operator set. *)
Definition clientWithoutOperator : Client :=
  {| operator := None;
     healthyNodeAccountIDs := [account 3; account 4; account 5];
     defaultMaxTransactionFee := Some (mkHbar 200000000);
     currentTime := 1600000000 |}.

(** Sample transactions, built by running calls on a new one. *)
Definition frozenTransfer : TransferTransaction :=
  @runAll toyCollaborators [ CallFreezeWith (Some sampleClient) ]
    (@NewTransferTransaction toyCollaborators).

(** Frozen by hand, the account [0.0.0] paying, nobody signed. *)
Definition frozenUnsigned : TransferTransaction :=
  @runAll toyCollaborators
    [ CallSetTransactionID (TransactionIDGenerate (account 0) 1600000000);
      CallSetNodeAccountIDs [account 3];
      CallFreezeWith None ]
    (@NewTransferTransaction toyCollaborators).

(** Id and nodes set by hand, the operator of [sampleClient] paying, not
    frozen yet. *)
Definition readyToFreeze : TransferTransaction :=
  @runAll toyCollaborators
    [ CallSetTransactionID (TransactionIDGenerate (account 1001) 1600000000);
      CallSetNodeAccountIDs [account 3; account 4] ]
    (@NewTransferTransaction toyCollaborators).

(** The same, frozen. *)
Definition frozenForOperator : TransferTransaction :=
  @runAll toyCollaborators [ CallFreezeWith None ] readyToFreeze.

End Sample.


(** * Properties *)

(** ** Network names *)

(** C9: [Network] returns "0", "1" and "2" for mainnet, testnet and
    previewnet, and panics, naming the value, for every other
    [NetworkName]. *)
Theorem Network_total_on_named_only :
  NetworkName.Network NetworkName.NetworkNameMainnet = NetworkName.Returns "0" /\
  NetworkName.Network NetworkName.NetworkNameTestnet = NetworkName.Returns "1" /\
  NetworkName.Network NetworkName.NetworkNamePreviewnet = NetworkName.Returns "2" /\
  forall n : NetworkName.NetworkName,
    n <> "mainnet" -> n <> "testnet" -> n <> "previewnet" ->
    NetworkName.Network n
    = NetworkName.Panics (NetworkName.unreachable_Network +:+ n).
Proof.
  repeat split; try reflexivity.
  intros n Hm Ht Hp.
  unfold NetworkName.Network, NetworkName.NetworkNameMainnet,
    NetworkName.NetworkNameTestnet, NetworkName.NetworkNamePreviewnet.
  repeat case_decide; congruence.
Qed.

Lemma Network_total_on_named_only_witness :
  NetworkName.Network "localhost"
  = NetworkName.Panics (NetworkName.unreachable_Network +:+ "localhost").
Proof.
  apply (proj2 (proj2 (proj2 Network_total_on_named_only))); discriminate.
Defined.

(** ** Key strings *)

Section KeyStrings.

Import Key.

Lemma hex_byte_roundtrip (b : byte) :
  match hex_value (hex_digit (Byte.to_N b / 16)),
        hex_value (hex_digit (Byte.to_N b mod 16)) with
  | Some h, Some l => Byte.of_N (16 * h + l)
  | _, _ => None
  end = Some b.
Proof. destruct b; reflexivity. Qed.

Lemma hex_DecodeString_EncodeToString (bs : bytes) :
  hex_DecodeString (hex_EncodeToString bs) = Some bs.
Proof.
  induction bs as [|b bs IH]; [reflexivity|].
  cbn [hex_EncodeToString hex_DecodeString].
  pose proof (hex_byte_roundtrip b) as Hb.
  destruct (hex_value _) as [h|]; [|discriminate].
  destruct (hex_value _) as [l|]; [|discriminate].
  rewrite Hb, IH. reflexivity.
Qed.

Lemma has_frame_framed (p key : bytes) (n : nat) :
  length key = n -> has_frame p n (p ++ key) = true.
Proof.
  intros Hn. unfold has_frame.
  rewrite take_app_length, length_app, Hn.
  rewrite !bool_decide_eq_true_2; done.
Qed.

Lemma has_frame_length (p bs : bytes) (n : nat) :
  length bs <> length p + n -> has_frame p n bs = false.
Proof.
  intros Hn. unfold has_frame.
  rewrite (bool_decide_eq_false_2 (length bs = _)) by done.
  apply andb_false_r.
Qed.

Lemma length_ed25519_prefix : length (prefix_bytes ed25519PrivateKeyPrefix) = 16.
Proof. reflexivity. Qed.

Lemma length_ecdsa_prefix : length (prefix_bytes ecdsaPrivateKeyPrefix) = 18.
Proof. reflexivity. Qed.

Lemma PrivateKeyFromBytesEd25519_der (key : bytes) :
  length key = 32 ->
  PrivateKeyFromBytesEd25519 (prefix_bytes ed25519PrivateKeyPrefix ++ key)
  = inr (fromSeed Ed25519 key).
Proof.
  intros Hk. unfold PrivateKeyFromBytesEd25519.
  rewrite has_frame_framed by done. by rewrite drop_app_length.
Qed.

Lemma PrivateKeyFromBytesEd25519_raw (key : bytes) :
  length key = 32 ->
  PrivateKeyFromBytesEd25519 key = inr (fromSeed Ed25519 key).
Proof.
  intros Hk. unfold PrivateKeyFromBytesEd25519.
  rewrite has_frame_length by (rewrite length_ed25519_prefix; lia).
  by rewrite bool_decide_eq_true_2.
Qed.

Lemma PrivateKeyFromBytesECDSA_der (key : bytes) :
  length key = 32 ->
  PrivateKeyFromBytesECDSA (prefix_bytes ecdsaPrivateKeyPrefix ++ key)
  = inr (fromSeed ECDSAsecp256k1 key).
Proof.
  intros Hk. unfold PrivateKeyFromBytesECDSA.
  rewrite has_frame_framed by done. by rewrite drop_app_length.
Qed.

Lemma PrivateKeyFromBytesECDSA_raw (key : bytes) :
  length key = 32 ->
  PrivateKeyFromBytesECDSA key = inr (fromSeed ECDSAsecp256k1 key).
Proof.
  intros Hk. unfold PrivateKeyFromBytesECDSA.
  rewrite has_frame_length by (rewrite length_ecdsa_prefix; lia).
  by rewrite bool_decide_eq_true_2.
Qed.

Lemma PrivateKeyFromBytes_der (k : PrivateKey) :
  length (keyBytes k) = 32 ->
  PrivateKeyFromBytes (BytesDer k) = inr (fromSeed (scheme k) (keyBytes k)).
Proof.
  intros Hk. unfold PrivateKeyFromBytes, BytesDer.
  destruct (scheme k); cbn [derPrefix].
  - rewrite has_frame_framed by done. by apply PrivateKeyFromBytesEd25519_der.
  - rewrite has_frame_length
      by (rewrite length_app, length_ed25519_prefix, length_ecdsa_prefix; lia).
    rewrite has_frame_framed by done. by apply PrivateKeyFromBytesECDSA_der.
Qed.

Lemma fromHex_EncodeToString parse (bs : bytes) :
  fromHex parse (hex_EncodeToString bs) = parse bs.
Proof. unfold fromHex. by rewrite hex_DecodeString_EncodeToString. Qed.

End KeyStrings.

(** C8: a private key of either scheme, written out in its DER or raw
    string form and parsed again, comes back with the same scheme and the
    same key bytes. *)
Theorem PrivateKey_string_roundtrip (k : Key.PrivateKey) :
  length (Key.keyBytes k) = 32 ->
  let k' := Key.fromSeed (Key.scheme k) (Key.keyBytes k) in
  Key.same_material k k' /\
  Key.PrivateKeyFromBytes (Key.BytesDer k) = inr k' /\
  Key.PrivateKeyFromString (Key.String_ k) = inr k' /\
  (Key.scheme k = Key.Ed25519 ->
   Key.PrivateKeyFromStringEd25519 (Key.String_ k) = inr k' /\
   Key.PrivateKeyFromStringEd25519 (Key.StringRaw k) = inr k' /\
   Key.PrivateKeyFromString (Key.StringRaw k) = inr k') /\
  (Key.scheme k = Key.ECDSAsecp256k1 ->
   Key.PrivateKeyFromStringECSDA (Key.String_ k) = inr k' /\
   Key.PrivateKeyFromStringECSDA (Key.StringRaw k) = inr k').
Proof.
  intros Hk k'. subst k'.
  unfold Key.PrivateKeyFromString, Key.PrivateKeyFromStringEd25519,
    Key.PrivateKeyFromStringECSDA, Key.String_, Key.StringRaw.
  rewrite !fromHex_EncodeToString.
  split; [by split|].
  split; [by apply PrivateKeyFromBytes_der|].
  split; [by apply PrivateKeyFromBytes_der|].
  split; intros Hs; rewrite Hs.
  - unfold Key.BytesDer, Key.BytesRaw. rewrite Hs. cbn [Key.derPrefix].
    split; [by apply PrivateKeyFromBytesEd25519_der|].
    split; [by apply PrivateKeyFromBytesEd25519_raw|].
    unfold Key.PrivateKeyFromBytes.
    rewrite !has_frame_length
      by (rewrite ?length_ed25519_prefix, ?length_ecdsa_prefix; lia).
    rewrite (bool_decide_eq_true_2 (length (Key.keyBytes k) = 32)) by done.
    by apply PrivateKeyFromBytesEd25519_raw.
  - unfold Key.BytesDer, Key.BytesRaw. rewrite Hs. cbn [Key.derPrefix].
    split; [by apply PrivateKeyFromBytesECDSA_der|].
    by apply PrivateKeyFromBytesECDSA_raw.
Qed.

Lemma PrivateKey_string_roundtrip_witness :
  Key.PrivateKeyFromString
    "302e020100300506032b657004220420db484b828e64b2d8f12ce3c0a0e93a0b8cce7af1bb8f39c97732394482538e10"
  = inr (Key.fromSeed Key.Ed25519 Key.testSeed).
Proof.
  exact (proj1 (proj2 (proj2 (PrivateKey_string_roundtrip
                                (Key.fromSeed Key.Ed25519 Key.testSeed) eq_refl)))).
Defined.

(** ** Transfer transactions *)

(** Unfold the monad and run the straight-line part of a method. *)
Ltac run_method :=
  cbv [mbind M_bind mret M_ret get put modify panic embedded IsFrozen
       requireNotFrozen final_state];
  cbn [Transaction_ pb tokenIndexes set_Transaction].

Section SetterGuard.

Context `{Collaborators}.

Lemma set_Transaction_same (t : TransferTransaction) :
  set_Transaction (Transaction_ t) t = t.
Proof. by destruct t. Qed.

Lemma requireNotFrozen_frozen (t : TransferTransaction) :
  isFrozen (Transaction_ t) = true ->
  embedded requireNotFrozen t = Panic TransactionIsFrozen t.
Proof.
  intros Hf. unfold embedded, requireNotFrozen.
  by rewrite Hf, set_Transaction_same.
Qed.

Lemma requireNotFrozen_mutable (t : TransferTransaction) :
  isFrozen (Transaction_ t) = false ->
  embedded requireNotFrozen t = Normal tt t.
Proof.
  intros Hf. unfold embedded, requireNotFrozen.
  by rewrite Hf, set_Transaction_same.
Qed.

Lemma guarded_frozen {A} (k : M TransferTransaction A) (t : TransferTransaction) :
  isFrozen (Transaction_ t) = true ->
  (embedded requireNotFrozen;; k) t = Panic TransactionIsFrozen t.
Proof.
  intros Hf. unfold mbind, M_bind. by rewrite requireNotFrozen_frozen.
Qed.

Lemma guarded_mutable {A} (k : M TransferTransaction A) (t : TransferTransaction) :
  isFrozen (Transaction_ t) = false ->
  (embedded requireNotFrozen;; k) t = k t.
Proof.
  intros Hf. unfold mbind, M_bind. by rewrite requireNotFrozen_mutable.
Qed.

End SetterGuard.

(** C1: on a frozen transfer transaction each of the seven setters fails
    with [TransactionIsFrozen] and leaves the transaction exactly as it
    was. *)
Theorem setters_fail_when_frozen `{Collaborators} (t : TransferTransaction) :
  isFrozen (Transaction_ t) = true ->
  (forall accountID amount,
     AddHbarTransfer accountID amount t = Panic TransactionIsFrozen t) /\
  (forall tokenID accountID value,
     AddTokenTransfer tokenID accountID value t = Panic TransactionIsFrozen t) /\
  (forall fee, SetMaxTransactionFee fee t = Panic TransactionIsFrozen t) /\
  (forall memo, SetTransactionMemo memo t = Panic TransactionIsFrozen t) /\
  (forall duration,
     SetTransactionValidDuration duration t = Panic TransactionIsFrozen t) /\
  (forall transactionID,
     SetTransactionID transactionID t = Panic TransactionIsFrozen t) /\
  (forall nodeID, SetNodeAccountIDs nodeID t = Panic TransactionIsFrozen t).
Proof.
  intros Hf. repeat split; intros; by apply guarded_frozen.
Qed.

Lemma setters_fail_when_frozen_witness :
  SetTransactionMemo "late" Sample.frozenTransfer
  = Panic TransactionIsFrozen Sample.frozenTransfer.
Proof.
  exact (proj1 (proj2 (proj2 (proj2
           (@setters_fail_when_frozen Sample.toyCollaborators
              Sample.frozenTransfer eq_refl)))) "late").
Defined.

(** *** Freezing *)

(** Case analysis over every path through [FreezeWith]. *)
Ltac freeze_cases :=
  unfold Freeze, FreezeWith, onFreeze, initFee, initTransactionID,
    transaction_freezeWith, Transaction_SetMaxTransactionFee,
    Transaction_SetTransactionID, resolveNodes, isFrozen;
  run_method;
  repeat (case_match; simplify_eq/=).

Section Freezing.

Context `{Collaborators}.

Lemma FreezeWith_returns client t :
  exists r, FreezeWith client t = Normal r (final_state (FreezeWith client t)).
Proof.
  destruct t as [[body i nodes txs sigs fr] p idx].
  freeze_cases; eauto.
Qed.

Lemma FreezeWith_frozen client t :
  frozen_wf (Transaction_ t) -> isFrozen (Transaction_ t) = true ->
  FreezeWith client t = Normal None t.
Proof.
  destruct t as [[[tid na fee dur memo data] i nodes txs sigs fr] p idx].
  unfold frozen_wf, isFrozen; cbn. intros Hwf Hf.
  destruct (Hwf Hf) as ([f ->] & [x ->] & ->).
  by freeze_cases.
Qed.

Lemma FreezeWith_frame client t :
  pb (final_state (FreezeWith client t)) = pb t /\
  tokenIndexes (final_state (FreezeWith client t)) = tokenIndexes t.
Proof.
  destruct t as [[body i nodes txs sigs fr] p idx].
  by freeze_cases.
Qed.

(** What a failed freeze leaves untouched. *)
Lemma FreezeWith_error client t e t' :
  FreezeWith client t = Normal (Some e) t' ->
  let b := Transaction_ t in
  let b' := Transaction_ t' in
  id b' = id b /\
  proto.TransactionID (pbBody b') = proto.TransactionID (pbBody b) /\
  nodeIDs b' = nodeIDs b /\
  transactions b' = transactions b /\
  signatures b' = signatures b /\
  frozen b' = frozen b /\
  proto.Memo (pbBody b') = proto.Memo (pbBody b) /\
  proto.TransactionValidDuration (pbBody b')
  = proto.TransactionValidDuration (pbBody b) /\
  pb t' = pb t /\
  tokenIndexes t' = tokenIndexes t.
Proof.
  destruct t as [[[tid na fee dur memo data] i nodes txs sigs fr] p idx].
  freeze_cases; intros; simplify_eq/=; done.
Qed.

Lemma FreezeWith_error_again client t e t' :
  FreezeWith client t = Normal (Some e) t' ->
  FreezeWith client t' = Normal (Some e) t'.
Proof.
  destruct t as [[[tid na fee dur memo data] i nodes txs sigs fr] p idx].
  freeze_cases; intros; simplify_eq/=; done.
Qed.

(** What a failed freeze does change: the fee, if it was unset, and the
    data slot, if the failure came after [onFreeze]. *)
Lemma FreezeWith_error_changes client t e t' :
  FreezeWith client t = Normal (Some e) t' ->
  proto.NodeAccountID (pbBody (Transaction_ t'))
  = proto.NodeAccountID (pbBody (Transaction_ t)) /\
  proto.TransactionFee (pbBody (Transaction_ t'))
  = Some (default (defaultFee client)
            (proto.TransactionFee (pbBody (Transaction_ t)))) /\
  ((e = errNoClientOrTransactionID /\
    proto.Data (pbBody (Transaction_ t')) = proto.Data (pbBody (Transaction_ t))) \/
   (e = errNoClientOrNodeID /\
    proto.Data (pbBody (Transaction_ t'))
    = Some proto.TransactionBody_CryptoTransfer)).
Proof.
  destruct t as [[[tid na fee dur memo data] i nodes txs sigs fr] p idx].
  freeze_cases; intros; simplify_eq/=; eauto 10.
Qed.

(** What a successful freeze of a mutable transaction establishes. *)
Lemma FreezeWith_success client t t' :
  isFrozen (Transaction_ t) = false ->
  FreezeWith client t = Normal None t' ->
  let b' := Transaction_ t' in
  frozen b' = true /\
  transactions b' = bodyFor (pbBody b') (pb t) <$> nodeIDs b' /\
  signatures b' = (fun _ => emptySignatureMap) <$> nodeIDs b' /\
  is_Some (proto.TransactionFee (pbBody b')) /\
  is_Some (proto.TransactionID (pbBody b')) /\
  proto.Data (pbBody b') = Some proto.TransactionBody_CryptoTransfer.
Proof.
  destruct t as [[[tid na fee dur memo data] i nodes txs sigs fr] p idx].
  freeze_cases; intros; simplify_eq/=; eauto 10.
Qed.

(** Without a client, a freeze succeeds once id and nodes are set. *)
Lemma Freeze_explicit t :
  isFrozen (Transaction_ t) = false ->
  is_Some (proto.TransactionID (pbBody (Transaction_ t))) ->
  nodeIDs (Transaction_ t) <> [] ->
  exists t', Freeze t = Normal None t' /\
             nodeIDs (Transaction_ t') = nodeIDs (Transaction_ t).
Proof.
  destruct t as [[[tid na fee dur memo data] i nodes txs sigs fr] p idx].
  cbn. intros -> [x ->] Hn.
  freeze_cases; eauto.
Qed.

Lemma wf_FreezeWith client t : wf t -> wf (final_state (FreezeWith client t)).
Proof.
  intros (Hs & Hf & Hm & Ht).
  destruct (FreezeWith_returns client t) as [r Hr].
  destruct (FreezeWith_frame client t) as [Hpb Hidx].
  destruct (isFrozen (Transaction_ t)) eqn:Hfr.
  { rewrite (FreezeWith_frozen client t Hf Hfr). exact (conj Hs (conj Hf (conj Hm Ht))). }
  assert (tokens_wf (final_state (FreezeWith client t))) as Ht'.
  { unfold tokens_wf, tokensOf in *. by rewrite Hpb, Hidx. }
  destruct r as [e|].
  - destruct (FreezeWith_error _ _ _ _ Hr) as (_ & _ & _ & Htx & Hsg & Hz & _).
    cbv zeta in *. unfold isFrozen in Hfr.
    split; [|split; [|split]]; [| | |done].
    + unfold signatures_wf in *. by rewrite Htx, Hsg.
    + unfold frozen_wf. rewrite Hz, Hfr. done.
    + unfold mutable_wf in *. rewrite Htx, Hsg. intros _. by apply Hm.
  - destruct (FreezeWith_success _ _ _ Hfr Hr) as (Hz & Htx & Hsg & Hfee & Hid & Hd).
    cbv zeta in *.
    split; [|split; [|split]]; [| | |done].
    + unfold signatures_wf. rewrite Htx, Hsg, !length_fmap. split; [done|].
      exists []. split; [constructor|].
      apply Forall_fmap, Forall_true. done.
    + by intros _.
    + unfold mutable_wf. rewrite Hz. done.
Qed.

End Freezing.

(** *** Signing *)

Section Signing.

Context `{Collaborators}.

Lemma set_signatures_same b : set_signatures (signatures b) b = b.
Proof. by destruct b. Qed.

Lemma signEach_seq publicKey signer n : forall k b,
  length (signatures b) = length (transactions b) ->
  k + n = length (transactions b) ->
  signEach publicKey signer (seq k n) b
  = Normal tt
      (set_signatures
         (take k (signatures b) ++
          zip_with (addSignature publicKey signer)
            (drop k (transactions b)) (drop k (signatures b)))
         b).
Proof.
  induction n as [|n IH]; intros k b Hlen Hk; cbn [seq signEach].
  - rewrite Nat.add_0_r in Hk.
    rewrite take_ge, !drop_ge, app_nil_r, set_signatures_same by lia.
    reflexivity.
  - run_method.
    destruct (lookup_lt_is_Some_2 (transactions b) k) as [body Hbody]; [lia|].
    destruct (lookup_lt_is_Some_2 (signatures b) k) as [m Hm]; [lia|].
    rewrite Hbody, Hm.
    rewrite IH; cbn [signatures transactions set_signatures].
    + f_equal. unfold set_signatures; cbn. f_equal.
      rewrite (drop_S (transactions b) body k Hbody).
      rewrite (drop_S (signatures b) m k Hm).
      rewrite drop_insert_lt by lia.
      erewrite take_S_r by (apply list_lookup_insert_eq; lia).
      rewrite take_insert_ge by lia.
      cbn [zip_with]. by rewrite <- app_assoc.
    + by rewrite length_insert.
    + lia.
Qed.

Lemma signEach_all publicKey signer b :
  length (signatures b) = length (transactions b) ->
  signEach publicKey signer (seq 0 (length (transactions b))) b
  = Normal tt (set_signatures (signAll publicKey signer b) b).
Proof.
  intros Hlen. rewrite signEach_seq by done.
  by rewrite take_0, !drop_0.
Qed.

Lemma signedBy_spec publicKey m :
  signedBy publicKey m = true <-> publicKey ∈ signersOf m.
Proof.
  unfold signedBy, signersOf. rewrite existsb_exists, list_elem_of_fmap.
  split.
  - intros (p & Hp & Heq). apply bool_decide_eq_true in Heq.
    exists p. split; [done|]. by apply list_elem_of_In.
  - intros (p & -> & Hp). exists p. split; [by apply list_elem_of_In|].
    by apply bool_decide_eq_true.
Qed.

Lemma keyAlreadySigned_spec publicKey b :
  keyAlreadySigned publicKey b = true
  <-> exists m, m ∈ signatures b /\ publicKey ∈ signersOf m.
Proof.
  unfold keyAlreadySigned. rewrite existsb_exists.
  split; intros (m & Hm & Hs); exists m.
  - split; [by apply list_elem_of_In|by apply signedBy_spec].
  - split; [by apply list_elem_of_In|by apply signedBy_spec].
Qed.

Lemma keyAlreadySigned_true publicKey b ks :
  Forall (fun m => signersOf m = ks) (signatures b) ->
  keyAlreadySigned publicKey b = true -> publicKey ∈ ks.
Proof.
  intros Hall (m & Hm & Hs)%keyAlreadySigned_spec.
  rewrite Forall_forall in Hall. by rewrite <- (Hall m Hm).
Qed.

Lemma keyAlreadySigned_false publicKey b ks :
  Forall (fun m => signersOf m = ks) (signatures b) ->
  signatures b <> [] ->
  keyAlreadySigned publicKey b = false -> publicKey ∉ ks.
Proof.
  intros Hall Hne Hk Hin.
  destruct (signatures b) as [|m l] eqn:Hs; [done|].
  apply not_true_iff_false in Hk. apply Hk, keyAlreadySigned_spec.
  exists m. rewrite Hs. split; [left|].
  apply Forall_cons in Hall as [-> _]. done.
Qed.

Lemma signersOf_addSignature publicKey signer body m :
  signersOf (addSignature publicKey signer body m) = signersOf m ++ [publicKey].
Proof.
  unfold signersOf, addSignature; cbn. rewrite fmap_app. cbn.
  by destruct publicKey.
Qed.

Lemma zip_with_addSignature_signers publicKey signer ks sigs : forall txs,
  Forall (fun m => signersOf m = ks) sigs ->
  Forall (fun m => signersOf m = ks ++ [publicKey])
         (zip_with (addSignature publicKey signer) txs sigs).
Proof.
  induction sigs as [|m sigs IH]; intros [|body txs] Hall; cbn; try constructor.
  - rewrite signersOf_addSignature. apply Forall_cons in Hall as [-> _]. done.
  - apply IH. by apply Forall_cons in Hall as [_ ?].
Qed.

Lemma filter_signer_one publicKey (l : list proto.SignaturePair) :
  NoDup (signerOf <$> l) -> publicKey ∈ signerOf <$> l ->
  length (filter (fun p => signerOf p = publicKey) l) = 1.
Proof.
  induction l as [|p l IH]; intros Hnd Hin.
  - by apply elem_of_nil in Hin.
  - rewrite fmap_cons in Hnd, Hin. apply NoDup_cons in Hnd as [Hp Hnd].
    rewrite filter_cons. case_decide as Heq.
    + cbn [length]. f_equal.
      destruct (filter _ l) as [|q r] eqn:Hq; [done|].
      assert (q ∈ filter (fun p0 => signerOf p0 = publicKey) l) as Hq'
        by (rewrite Hq; left).
      apply list_elem_of_filter in Hq' as [Hq1 Hq2].
      exfalso. apply Hp. rewrite Heq, <- Hq1. by apply list_elem_of_fmap_2.
    + apply IH; [done|]. apply elem_of_cons in Hin as [?|?]; congruence.
Qed.

Lemma entriesOf_one publicKey m :
  NoDup (signersOf m) -> publicKey ∈ signersOf m ->
  length (entriesOf publicKey m) = 1.
Proof. apply filter_signer_one. Qed.

Lemma SignWith_unfold publicKey signer t :
  SignWith publicKey signer t
  = let t0 := if isFrozen (Transaction_ t) then t else final_state (Freeze t) in
    if keyAlreadySigned publicKey (Transaction_ t0) then Normal tt t0
    else embedded
           (signEach publicKey signer
              (seq 0 (length (transactions (Transaction_ t0))))) t0.
Proof.
  unfold SignWith. run_method.
  destruct (isFrozen (Transaction_ t)) eqn:Hf; cbn [negb].
  - by destruct (keyAlreadySigned _ _).
  - destruct (FreezeWith_returns None t) as [r Hr].
    unfold Freeze. rewrite Hr. cbn [final_state].
    by destruct (keyAlreadySigned _ _).
Qed.

(** The transaction as [SignWith] sees it after its auto-freeze step. *)
Lemma wf_autoFreeze t :
  wf t -> wf (if isFrozen (Transaction_ t) then t else final_state (Freeze t)).
Proof. intros Hwf. case_match; [done|]. by apply wf_FreezeWith. Qed.

Lemma SignWith_signed publicKey signer t :
  let t0 := if isFrozen (Transaction_ t) then t else final_state (Freeze t) in
  keyAlreadySigned publicKey (Transaction_ t0) = true ->
  SignWith publicKey signer t = Normal tt t0.
Proof.
  intros t0 Hk. subst t0. rewrite SignWith_unfold. cbv zeta. by rewrite Hk.
Qed.

Lemma SignWith_unsigned publicKey signer t :
  let t0 := if isFrozen (Transaction_ t) then t else final_state (Freeze t) in
  length (signatures (Transaction_ t0)) = length (transactions (Transaction_ t0)) ->
  keyAlreadySigned publicKey (Transaction_ t0) = false ->
  SignWith publicKey signer t
  = Normal tt
      (set_Transaction
         (set_signatures (signAll publicKey signer (Transaction_ t0))
            (Transaction_ t0)) t0).
Proof.
  intros t0 Hlen Hk. subst t0. rewrite SignWith_unfold. cbv zeta. rewrite Hk.
  unfold embedded. by rewrite signEach_all.
Qed.

Lemma wf_set_signAll publicKey signer t :
  wf t -> keyAlreadySigned publicKey (Transaction_ t) = false ->
  wf (set_Transaction
        (set_signatures (signAll publicKey signer (Transaction_ t))
           (Transaction_ t)) t).
Proof.
  intros ((Hlen & ks & Hnd & Hall) & Hf & Hm & Ht) Hk.
  split; [|split; [|split]]; [| | |done].
  - split.
    + cbn. unfold signAll. rewrite length_zip_with_l_eq; lia.
    + cbn. destruct (decide (signatures (Transaction_ t) = [])) as [Hs|Hs].
      * exists ks. split; [done|]. unfold signAll. rewrite Hs.
        by rewrite zip_with_nil_r.
      * exists (ks ++ [publicKey]). split.
        -- apply NoDup_app. split; [done|]. split; [|apply NoDup_singleton].
           intros x Hx ->%list_elem_of_singleton. revert Hx.
           by eapply keyAlreadySigned_false.
        -- by apply zip_with_addSignature_signers.
  - done.
  - intros Hz. cbn in Hz. destruct (Hm Hz) as [Htx Hsg]. cbn.
    split; [done|]. unfold signAll. by rewrite Hsg, zip_with_nil_r.
Qed.

Lemma SignWith_returns publicKey signer t :
  wf t ->
  SignWith publicKey signer t
  = Normal tt (final_state (SignWith publicKey signer t)).
Proof.
  intros Hwf.
  destruct (keyAlreadySigned publicKey
              (Transaction_ (if isFrozen (Transaction_ t) then t
                             else final_state (Freeze t)))) eqn:Hk.
  - by rewrite (SignWith_signed _ signer _ Hk).
  - pose proof (wf_autoFreeze t Hwf) as ((Hlen & _) & _).
    by rewrite (SignWith_unsigned _ signer _ Hlen Hk).
Qed.

Lemma wf_SignWith publicKey signer t :
  wf t -> wf (final_state (SignWith publicKey signer t)).
Proof.
  intros Hwf. pose proof (wf_autoFreeze t Hwf) as Hwf0.
  destruct (keyAlreadySigned publicKey
              (Transaction_ (if isFrozen (Transaction_ t) then t
                             else final_state (Freeze t)))) eqn:Hk.
  - by rewrite (SignWith_signed _ signer _ Hk).
  - pose proof Hwf0 as ((Hlen & _) & _).
    rewrite (SignWith_unsigned _ signer _ Hlen Hk). cbn [final_state].
    by apply wf_set_signAll.
Qed.

Lemma signed_everywhere publicKey t :
  wf t -> keyAlreadySigned publicKey (Transaction_ t) = true ->
  Forall (fun m => publicKey ∈ signersOf m) (signatures (Transaction_ t)).
Proof.
  intros ((_ & ks & _ & Hall) & _) Hk.
  pose proof (keyAlreadySigned_true _ _ _ Hall Hk) as Hin.
  eapply Forall_impl; [exact Hall|]. by intros m ->.
Qed.

Lemma signAll_signed publicKey signer b :
  Forall (fun m => publicKey ∈ signersOf m) (signAll publicKey signer b).
Proof.
  unfold signAll. generalize (transactions b).
  induction (signatures b) as [|m l IH]; intros [|body txs]; cbn;
    try constructor; [|apply IH].
  rewrite signersOf_addSignature. apply elem_of_app. right. left.
Qed.

Lemma one_entry_each publicKey t :
  wf t ->
  Forall (fun m => publicKey ∈ signersOf m) (signatures (Transaction_ t)) ->
  Forall (fun m => length (entriesOf publicKey m) = 1)
         (signatures (Transaction_ t)).
Proof.
  intros ((_ & ks & Hnd & Hall) & _) Hin.
  rewrite Forall_forall in *. intros m Hm.
  apply entriesOf_one; [|by apply Hin]. by rewrite (Hall m Hm).
Qed.

Lemma no_duplicate_signers t :
  wf t -> Forall (fun m => NoDup (signersOf m)) (signatures (Transaction_ t)).
Proof.
  intros ((_ & ks & Hnd & Hall) & _).
  eapply Forall_impl; [exact Hall|]. by intros m ->.
Qed.

Lemma autoFreeze_stable t :
  let t0 := if isFrozen (Transaction_ t) then t else final_state (Freeze t) in
  (if isFrozen (Transaction_ t0) then t0 else final_state (Freeze t0)) = t0.
Proof.
  intros t0. destruct (isFrozen (Transaction_ t0)) eqn:Hf0; [done|].
  subst t0. destruct (isFrozen (Transaction_ t)) eqn:Hf; [congruence|].
  unfold Freeze in *.
  destruct (FreezeWith_returns None t) as [[e|] Hr].
  - by rewrite (FreezeWith_error_again _ _ _ _ Hr).
  - destruct (FreezeWith_success _ _ _ Hf Hr) as [Hz _].
    unfold isFrozen in Hf0. congruence.
Qed.

(** A call for a key that is in every signature map changes nothing,
    provided the auto-freeze step changes nothing. *)
Lemma SignWith_noop publicKey signer t :
  wf t ->
  (if isFrozen (Transaction_ t) then t else final_state (Freeze t)) = t ->
  Forall (fun m => publicKey ∈ signersOf m) (signatures (Transaction_ t)) ->
  SignWith publicKey signer t = Normal tt t.
Proof.
  intros Hwf Hstable Hin.
  destruct (keyAlreadySigned publicKey (Transaction_ t)) eqn:Hk.
  - rewrite SignWith_signed; rewrite Hstable; done.
  - destruct Hwf as ((Hlen & _) & _).
    rewrite SignWith_unsigned; rewrite Hstable; [|done..].
    destruct (signatures (Transaction_ t)) as [|m l] eqn:Hs.
    + unfold signAll. rewrite Hs, zip_with_nil_r, <- Hs.
      by rewrite set_signatures_same, set_Transaction_same.
    + apply not_true_iff_false in Hk. exfalso. apply Hk.
      apply keyAlreadySigned_spec. exists m. rewrite Hs. split; [left|].
      by apply Forall_cons in Hin as [? _].
Qed.

End Signing.

(** *** Token transfers *)

Section Tokens.

Context `{Collaborators}.

Implicit Types (k : TokenID) (l : list proto.TokenTransferList).

Lemma joinEntries_app o xs ys :
  joinEntries (joinEntries o xs) ys = joinEntries o (xs ++ ys).
Proof.
  destruct xs as [|x xs]; [done|]. destruct ys as [|y ys]; cbn.
  - by rewrite app_nil_r.
  - by rewrite <- app_assoc.
Qed.

Lemma foldl_appendAt k k' (xs : list proto.AccountAmount) :
  forall m : gmap TokenID (list TokenTransfer),
  foldl (fun m aa => appendAt k (tokenTransferFromProtobuf aa) m) m xs !! k'
  = joinEntries (m !! k')
      (if decide (k = k') then tokenTransferFromProtobuf <$> xs else []).
Proof.
  induction xs as [|a xs IH]; intros m; cbn [foldl].
  - by case_decide.
  - rewrite IH. unfold appendAt. case_decide as Hk.
    + subst k'. rewrite lookup_insert_eq, fmap_cons.
      destruct (tokenTransferFromProtobuf <$> xs) eqn:Hxs; cbn; [done|].
      by rewrite <- app_assoc.
    + by rewrite lookup_insert_ne.
Qed.

Lemma entriesFor_cons k tt l :
  entriesFor k (tt :: l)
  = (if decide (tokenOf tt = k)
     then tokenTransferFromProtobuf <$> proto.TokenTransferList_Transfers tt
     else []) ++ entriesFor k l.
Proof. reflexivity. Qed.

Lemma entriesFor_app k l1 l2 :
  entriesFor k (l1 ++ l2) = entriesFor k l1 ++ entriesFor k l2.
Proof. apply bind_app. Qed.

Lemma entriesFor_absent k l :
  k ∉ tokenOf <$> l -> entriesFor k l = [].
Proof.
  induction l as [|tt l IH]; [done|]. rewrite fmap_cons, not_elem_of_cons.
  intros [Hne Hl]. rewrite entriesFor_cons, IH by done.
  by rewrite decide_False.
Qed.

Lemma foldl_tokenTransfers k l :
  forall m : gmap TokenID (list TokenTransfer),
  foldl (fun m tokenTransfer =>
           foldl (fun m accountAmount =>
                    let token :=
                      tokenIDFromProtobuf (proto.TokenTransferList_Token tokenTransfer) in
                    appendAt token (tokenTransferFromProtobuf accountAmount) m)
                 m (proto.TokenTransferList_Transfers tokenTransfer))
        m l !! k
  = joinEntries (m !! k) (entriesFor k l).
Proof.
  induction l as [|tt l IH]; intros m; cbn [foldl]; [done|].
  rewrite IH, entriesFor_cons, <- joinEntries_app. f_equal.
  apply foldl_appendAt.
Qed.

Lemma GetTokenTransfers_lookup t k :
  GetTokenTransfers t !! k
  = joinEntries None (entriesFor k (proto.TokenTransfers (pb t))).
Proof.
  unfold GetTokenTransfers. rewrite foldl_tokenTransfers.
  by rewrite lookup_empty.
Qed.

(** One call on a mutable transaction. *)
Lemma AddTokenTransfer_mutable k a v t :
  isFrozen (Transaction_ t) = false -> tokens_wf t ->
  exists t',
    AddTokenTransfer k a v t = Normal tt t' /\
    Transaction_ t' = Transaction_ t /\
    tokens_wf t' /\
    entriesFor k (proto.TokenTransfers (pb t'))
    = entriesFor k (proto.TokenTransfers (pb t)) ++ [transferOf (a, v)] /\
    forall k', k' <> k ->
      entriesFor k' (proto.TokenTransfers (pb t'))
      = entriesFor k' (proto.TokenTransfers (pb t)).
Proof.
  intros Hf [Hnd Hidx]. unfold AddTokenTransfer.
  rewrite guarded_mutable by done. run_method.
  set (aa := {| proto.AccountAmount_AccountID := AccountID_toProtobuf a;
                proto.Amount := v |}).
  destruct (tokenIndexes t !! k) as [i|] eqn:Hi.
  - pose proof (proj1 (Hidx k i) Hi) as Hk. unfold tokensOf in Hk.
    rewrite list_lookup_fmap in Hk.
    destruct (proto.TokenTransfers (pb t) !! i) as [tl|] eqn:Htl; [|done].
    cbn in Hk. injection Hk as Hk.
    eexists. split; [reflexivity|]. split; [done|].
    assert (tokensOf (set_TokenTransfers
              (<[i:=appendTransfer aa tl]> (proto.TokenTransfers (pb t))) t)
            = tokensOf t) as Htoks.
    { unfold tokensOf; cbn. rewrite list_fmap_insert. cbn.
      apply list_insert_id. rewrite list_lookup_fmap, Htl. done. }
    split; [|split].
    + split; [by rewrite Htoks|]. intros k' j. rewrite Htoks. apply Hidx.
    + cbn [pb set_TokenTransfers set_pb proto.TokenTransfers].
      rewrite insert_take_drop by (by eapply lookup_lt_Some).
      rewrite <- (take_drop_middle _ _ _ Htl) at 3.
      rewrite !entriesFor_app, !entriesFor_cons. cbn. fold (tokenOf tl).
      rewrite !decide_True by done.
      rewrite (entriesFor_absent k (drop (S i) _)).
      * rewrite !app_nil_r, fmap_app. cbn. by rewrite <- app_assoc.
      * unfold tokensOf in Hnd.
        rewrite <- (take_drop_middle _ _ _ Htl), fmap_app, fmap_cons in Hnd.
        apply NoDup_app in Hnd as (_ & _ & Hnd).
        apply NoDup_cons in Hnd as [Hnd _]. by rewrite <- Hk.
    + intros k' Hne.
      cbn [pb set_TokenTransfers set_pb proto.TokenTransfers].
      rewrite insert_take_drop by (by eapply lookup_lt_Some).
      rewrite <- (take_drop_middle _ _ _ Htl) at 3.
      rewrite !entriesFor_app, !entriesFor_cons. cbn. fold (tokenOf tl).
      rewrite !decide_False by (unfold tokenOf in *; cbn; congruence). done.
  - eexists. split; [reflexivity|]. split; [done|].
    assert (k ∉ tokensOf t) as Hfresh.
    { intros (j & Hj)%list_elem_of_lookup. apply Hidx in Hj. congruence. }
    assert (tokensOf
              (set_TokenTransfers
                 (proto.TokenTransfers (pb t) ++
                  [{| proto.TokenTransferList_Token := TokenID_toProtobuf k;
                      proto.TokenTransferList_Transfers := [aa] |}])
                 (set_tokenIndexes
                    (<[k:=length (proto.TokenTransfers (pb t))]> (tokenIndexes t)) t))
            = tokensOf t ++ [k]) as Htoks.
    { unfold tokensOf, tokenOf; cbn. rewrite fmap_app. cbn.
      by rewrite tokenID_roundtrip. }
    split; [|split].
    + split.
      * rewrite Htoks. apply NoDup_app. split; [done|].
        split; [|apply NoDup_singleton].
        intros x Hx ->%list_elem_of_singleton. done.
      * intros k' j. rewrite Htoks. cbn [tokenIndexes set_TokenTransfers set_pb set_tokenIndexes].
        assert (length (proto.TokenTransfers (pb t)) = length (tokensOf t)) as ->
          by (unfold tokensOf; by rewrite length_fmap).
        destruct (decide (k = k')) as [<-|Hne].
        -- rewrite lookup_insert_eq. split.
           ++ intros [= <-]. rewrite lookup_app_r by lia.
              by rewrite Nat.sub_diag.
           ++ intros [Hl | [Hlen Hr]]%lookup_app_Some.
              ** exfalso. apply Hfresh. by eapply list_elem_of_lookup_2.
              ** f_equal. apply lookup_lt_Some in Hr. cbn in Hr. lia.
        -- rewrite lookup_insert_ne by done. rewrite Hidx. split.
           ++ apply lookup_app_l_Some.
           ++ intros [Hl | [Hlen Hr]]%lookup_app_Some; [done|].
              apply list_lookup_singleton_Some in Hr as [_ ?]. congruence.
    + cbn [pb set_TokenTransfers set_pb set_tokenIndexes proto.TokenTransfers].
      rewrite entriesFor_app. f_equal. rewrite entriesFor_cons.
      unfold tokenOf; cbn.
      rewrite tokenID_roundtrip, decide_True by done. done.
    + intros k' Hne.
      cbn [pb set_TokenTransfers set_pb set_tokenIndexes proto.TokenTransfers].
      rewrite entriesFor_app, entriesFor_cons.
      unfold tokenOf; cbn.
      rewrite tokenID_roundtrip, decide_False by congruence.
      by rewrite app_nil_r.
Qed.

Lemma addTokenTransfers_mutable k calls : forall t,
  isFrozen (Transaction_ t) = false -> tokens_wf t ->
  let t' := addTokenTransfers k calls t in
  Transaction_ t' = Transaction_ t /\
  tokens_wf t' /\
  entriesFor k (proto.TokenTransfers (pb t'))
  = entriesFor k (proto.TokenTransfers (pb t)) ++ (transferOf <$> calls) /\
  forall k', k' <> k ->
    entriesFor k' (proto.TokenTransfers (pb t'))
    = entriesFor k' (proto.TokenTransfers (pb t)).
Proof.
  induction calls as [|[a v] calls IH]; intros t Hf Hwf; cbn.
  - by rewrite app_nil_r.
  - destruct (AddTokenTransfer_mutable k a v t Hf Hwf)
      as (t1 & Hrun & Hb & Hwf1 & Hk & Hother).
    unfold addTokenTransfers in IH. rewrite Hrun. cbn [final_state].
    destruct (IH t1) as (Hb' & Hwf' & Hk' & Hother'); [by rewrite Hb|done|].
    split; [congruence|]. split; [done|]. split.
    + rewrite Hk', Hk, <- app_assoc. done.
    + intros k' Hne. rewrite Hother', Hother; done.
Qed.

End Tokens.

(** *** The invariant of reachable transactions *)

Section Invariant.

Context `{Collaborators}.

Lemma wf_new : wf NewTransferTransaction.
Proof.
  split; [|split; [|split]].
  - split; [done|]. exists []. split; constructor.
  - done.
  - done.
  - split; [constructor|]. intros k i. unfold tokensOf; cbn.
    rewrite lookup_empty, lookup_nil. done.
Qed.

(** A change to a mutable transaction that leaves the per-node state and
    the token lists alone. *)
Lemma wf_update t t' :
  wf t ->
  frozen (Transaction_ t) = false ->
  frozen (Transaction_ t') = false ->
  transactions (Transaction_ t') = transactions (Transaction_ t) ->
  signatures (Transaction_ t') = signatures (Transaction_ t) ->
  proto.TokenTransfers (pb t') = proto.TokenTransfers (pb t) ->
  tokenIndexes t' = tokenIndexes t ->
  wf t'.
Proof.
  intros (Hs & Hf & Hm & Ht) Hz Hz' Htx Hsg Htt Hidx.
  split; [|split; [|split]].
  - unfold signatures_wf. by rewrite Htx, Hsg.
  - intros ?. congruence.
  - unfold mutable_wf. rewrite Htx, Hsg. intros _. by apply Hm.
  - unfold tokens_wf, tokensOf. by rewrite Htt, Hidx.
Qed.

Lemma wf_guarded (k : M TransferTransaction unit) t :
  wf t ->
  (isFrozen (Transaction_ t) = false -> wf (final_state (k t))) ->
  wf (final_state ((embedded requireNotFrozen;; k) t)).
Proof.
  intros Hwf Hk. destruct (isFrozen (Transaction_ t)) eqn:Hf.
  - by rewrite guarded_frozen.
  - rewrite guarded_mutable by done. by apply Hk.
Qed.

Lemma wf_AddTokenTransfer k a v t :
  wf t -> wf (final_state (AddTokenTransfer k a v t)).
Proof.
  intros Hwf. destruct (isFrozen (Transaction_ t)) eqn:Hf.
  - unfold AddTokenTransfer. by rewrite guarded_frozen.
  - destruct Hwf as (Hs & Hfz & Hm & Ht).
    destruct (AddTokenTransfer_mutable k a v t Hf Ht) as (t' & -> & Hb & Ht' & _).
    cbn [final_state]. rewrite <- Hb in Hs, Hfz, Hm. done.
Qed.

Lemma Execute_state client t :
  final_state (Execute client t) = final_state (Execute_autoSign client t).
Proof.
  unfold Execute. unfold mbind, M_bind at 1.
  destruct (Execute_autoSign client t) as [[] t'|p t']; [|done].
  unfold Execute_dispatch. run_method.
  destruct client as [c|]; [|done]. by destruct (execute c _).
Qed.

Lemma Execute_autoSign_unfold client t :
  Execute_autoSign client t
  = let t0 := if isFrozen (Transaction_ t) then t
              else final_state (FreezeWith client t) in
    match client with
    | None => Panic NilPointerDereference t0
    | Some c =>
        if negb (isZero (GetOperatorAccountID c))
           && equals (GetOperatorAccountID c)
                (TransactionID_AccountID (id (Transaction_ t0)))
        then match operator c with
             | None => Panic NilPointerDereference t0
             | Some op => SignWith (GetOperatorPublicKey c) (signer op) t0
             end
        else Normal tt t0
    end.
Proof.
  unfold Execute_autoSign. run_method.
  destruct (isFrozen (Transaction_ t)) eqn:Hf; cbn [negb].
  - destruct client as [c|]; [|done]. by repeat case_match.
  - destruct (FreezeWith_returns client t) as [r ->]. cbn [final_state].
    destruct client as [c|]; [|done]. by repeat case_match.
Qed.

Lemma SignWithOperator_unfold client t :
  SignWithOperator client t
  = match client with
    | None => Panic NilPointerDereference t
    | Some c =>
        match operator c with
        | None => Normal (Some errClientOperatorSigning) t
        | Some op =>
            let t0 := if isFrozen (Transaction_ t) then t
                      else final_state (FreezeWith client t) in
            (SignWith (publicKey op) (signer op);; mret None) t0
        end
    end.
Proof.
  unfold SignWithOperator. destruct client as [c|]; [|done].
  destruct (operator c) as [op|]; [|done]. run_method.
  destruct (isFrozen (Transaction_ t)) eqn:Hf; cbn [negb]; [done|].
  destruct (FreezeWith_returns (Some c) t) as [r ->]. done.
Qed.

Lemma wf_run c t : wf t -> wf (run c t).
Proof.
  intros Hwf. destruct c; cbn [run].
  - apply wf_guarded; [done|]. intros Hf. run_method.
    eapply wf_update; try done.
  - by apply wf_AddTokenTransfer.
  - apply wf_guarded; [done|]. intros Hf. eapply wf_update; try done.
  - apply wf_guarded; [done|]. intros Hf. eapply wf_update; try done.
  - apply wf_guarded; [done|]. intros Hf. eapply wf_update; try done.
  - apply wf_guarded; [done|]. intros Hf. eapply wf_update; try done.
  - apply wf_guarded; [done|]. intros Hf. eapply wf_update; try done.
  - by apply wf_FreezeWith.
  - by apply wf_SignWith.
  - by apply wf_SignWith.
  - rewrite SignWithOperator_unfold.
    destruct client as [c|]; [|exact Hwf].
    destruct (operator c) as [op|]; [|exact Hwf].
    cbv zeta. unfold mbind, M_bind.
    assert (wf (if isFrozen (Transaction_ t) then t
                else final_state (FreezeWith (Some c) t))) as Hwf0.
    { case_match; [done|]. by apply wf_FreezeWith. }
    rewrite (SignWith_returns _ _ _ Hwf0). cbn [final_state mret M_ret].
    by apply wf_SignWith.
  - rewrite Execute_state, Execute_autoSign_unfold. cbv zeta.
    assert (wf (if isFrozen (Transaction_ t) then t
                else final_state (FreezeWith client t))) as Hwf0.
    { case_match; [done|]. by apply wf_FreezeWith. }
    set (t0 := if isFrozen (Transaction_ t) then t else _) in *.
    destruct client as [c|]; [|exact Hwf0].
    destruct (negb _ && _); [|exact Hwf0].
    destruct (operator c) as [op|]; [|exact Hwf0].
    by apply wf_SignWith.
Qed.

Lemma reachable_wf t : reachable t -> wf t.
Proof. induction 1; [apply wf_new|by apply wf_run]. Qed.

End Invariant.

(** *** Signing twice, freezing twice, failed freezes *)

Section Reached.
Context `{Collaborators}.

Lemma reachable_runAll calls : forall t, reachable t -> reachable (runAll calls t).
Proof.
  induction calls as [|c calls IH]; intros t Ht; [done|].
  apply IH. by constructor.
Qed.
End Reached.

(** C2: take a transaction built through the methods and let [t0] be what
    the auto-freeze step of [SignWith] makes of it (the transaction itself
    when it is frozen).  [SignWith] returns [t0] unchanged if the key had
    signed, and otherwise [t0] with the key's signature over body [i]
    appended to signature map [i], for every [i]: bodies are kept, there is
    one map per body, and every map holds exactly one entry of the key.  A
    second [SignWith] with the same key (whatever the signer function) then
    changes nothing.  No signature map of a transaction built through the
    methods lists a signer twice. *)
Theorem SignWith_same_key_twice `{Collaborators}
    (t : TransferTransaction) (publicKey : Key.PublicKey)
    (signer signer' : TransactionSigner) :
  reachable t ->
  let t0 := if isFrozen (Transaction_ t) then t else final_state (Freeze t) in
  exists t1,
    SignWith publicKey signer t = Normal tt t1 /\
    (keyAlreadySigned publicKey (Transaction_ t0) = true -> t1 = t0) /\
    (keyAlreadySigned publicKey (Transaction_ t0) = false ->
     t1 = set_Transaction
            (set_signatures (signAll publicKey signer (Transaction_ t0))
               (Transaction_ t0)) t0) /\
    transactions (Transaction_ t1) = transactions (Transaction_ t0) /\
    length (signatures (Transaction_ t1)) = length (transactions (Transaction_ t0)) /\
    Forall (fun m => length (entriesOf publicKey m) = 1)
           (signatures (Transaction_ t1)) /\
    SignWith publicKey signer' t1 = Normal tt t1 /\
    Forall (fun m => NoDup (signersOf m)) (signatures (Transaction_ t)).
Proof.
  intros Hwf%reachable_wf t0.
  pose proof (wf_autoFreeze t Hwf) as Hwf0.
  pose proof (autoFreeze_stable t) as Hst. cbv zeta in Hst.
  fold t0 in Hwf0, Hst.
  pose proof Hwf0 as ((Hlen & _) & _ & Hm & _).
  destruct (keyAlreadySigned publicKey (Transaction_ t0)) eqn:Hk.
  - exists t0. pose proof (signed_everywhere _ _ Hwf0 Hk) as Hin.
    split; [by apply SignWith_signed|].
    split; [done|]. split; [done|]. split; [done|]. split; [done|].
    split; [by apply one_entry_each|].
    split; [by apply SignWith_noop|by apply no_duplicate_signers].
  - pose proof (wf_set_signAll publicKey signer t0 Hwf0 Hk) as Hwf1.
    exists (set_Transaction
              (set_signatures (signAll publicKey signer (Transaction_ t0))
                 (Transaction_ t0)) t0).
    split; [exact (SignWith_unsigned publicKey signer t Hlen Hk)|].
    split; [done|]. split; [done|]. split; [done|].
    split.
    { cbn. unfold signAll. rewrite length_zip_with_l_eq; lia. }
    split; [apply one_entry_each; [done|]; apply signAll_signed|].
    split; [|by apply no_duplicate_signers].
    apply SignWith_noop; [done| |apply signAll_signed].
    cbn [Transaction_ set_Transaction]. unfold isFrozen at 1.
    cbn [frozen set_signatures].
    destruct (frozen (Transaction_ t0)) eqn:Hz; [done|].
    destruct (Hm Hz) as [Htx Hsg].
    assert (signAll publicKey signer (Transaction_ t0)
            = signatures (Transaction_ t0)) as ->.
    { unfold signAll. by rewrite Hsg, zip_with_nil_r. }
    rewrite set_signatures_same, set_Transaction_same.
    unfold isFrozen in Hst. by rewrite Hz in Hst.
Qed.

Lemma SignWith_same_key_twice_witness :
  exists t1,
    @SignWith Sample.toyCollaborators Sample.otherKey Sample.toySigner
      Sample.frozenTransfer = Normal tt t1 /\
    t1 = set_Transaction
           (set_signatures
              (signAll Sample.otherKey Sample.toySigner
                 (Transaction_ Sample.frozenTransfer))
              (Transaction_ Sample.frozenTransfer)) Sample.frozenTransfer /\
    length (signatures (Transaction_ t1)) = 3 /\
    Forall (fun m => length (entriesOf Sample.otherKey m) = 1)
           (signatures (Transaction_ t1)) /\
    @SignWith Sample.toyCollaborators Sample.otherKey Sample.toySigner t1
    = Normal tt t1.
Proof.
  destruct (@SignWith_same_key_twice Sample.toyCollaborators
              Sample.frozenTransfer Sample.otherKey Sample.toySigner Sample.toySigner)
    as (t1 & Hrun & _ & Hnew & _ & Hlen & Hone & Hagain & _).
  - apply reachable_runAll. constructor.
  - exists t1. split; [exact Hrun|]. split; [exact (Hnew eq_refl)|].
    split; [exact Hlen|]. split; [exact Hone|exact Hagain].
Defined.

(** C3: on a frozen transaction a further [FreezeWith] (and so [Freeze],
    which is [FreezeWith] without a client) returns no error and leaves the
    transaction as it is; its TransactionID and its node list in
    particular. *)
Theorem Freeze_idempotent `{Collaborators}
    (t : TransferTransaction) (client : option Client) :
  reachable t ->
  isFrozen (Transaction_ t) = true ->
  exists t',
    FreezeWith client t = Normal None t' /\
    id (Transaction_ t') = id (Transaction_ t) /\
    proto.TransactionID (pbBody (Transaction_ t'))
    = proto.TransactionID (pbBody (Transaction_ t)) /\
    nodeIDs (Transaction_ t') = nodeIDs (Transaction_ t) /\
    t' = t.
Proof.
  intros (_ & Hf & _)%reachable_wf Hz. exists t.
  split; [by apply FreezeWith_frozen|done].
Qed.

Lemma Freeze_idempotent_witness :
  exists t',
    @Freeze Sample.toyCollaborators Sample.frozenTransfer = Normal None t' /\
    id (Transaction_ t') = id (Transaction_ Sample.frozenTransfer) /\
    proto.TransactionID (pbBody (Transaction_ t'))
    = proto.TransactionID (pbBody (Transaction_ Sample.frozenTransfer)) /\
    nodeIDs (Transaction_ t') = nodeIDs (Transaction_ Sample.frozenTransfer) /\
    t' = Sample.frozenTransfer.
Proof.
  apply (@Freeze_idempotent Sample.toyCollaborators Sample.frozenTransfer None).
  - apply reachable_runAll. constructor.
  - reflexivity.
Defined.

(** C5, as stated, fails: freezing a new transaction against a client that
    has a default fee but no operator returns an error, and the fee has
    been set all the same, [initFee] running before the id is looked at. *)
Lemma FreezeWith_error_sets_fee :
  ~ (forall e t',
       @FreezeWith Sample.toyCollaborators (Some Sample.clientWithoutOperator)
         (@NewTransferTransaction Sample.toyCollaborators) = Normal (Some e) t' ->
       t' = @NewTransferTransaction Sample.toyCollaborators).
Proof.
  intros Hclaim.
  specialize (Hclaim errNoClientOrTransactionID _ eq_refl).
  apply (f_equal (fun t => proto.TransactionFee (pbBody (Transaction_ t)))) in Hclaim.
  discriminate Hclaim.
Qed.

(** C5, amended: when [FreezeWith] returns an error, every field of the
    transaction is as before but two: the max fee, which is set to its
    default if it was unset (and kept if it was set), and the body's data
    slot, which is attached when the failure came after [onFreeze] (no node
    list to resolve) and kept when it came before (no TransactionID). *)
Theorem FreezeWith_error_keeps_frozen_state `{Collaborators}
    (t t' : TransferTransaction) (client : option Client) (e : Error) :
  FreezeWith client t = Normal (Some e) t' ->
  id (Transaction_ t') = id (Transaction_ t) /\
  proto.TransactionID (pbBody (Transaction_ t'))
  = proto.TransactionID (pbBody (Transaction_ t)) /\
  nodeIDs (Transaction_ t') = nodeIDs (Transaction_ t) /\
  transactions (Transaction_ t') = transactions (Transaction_ t) /\
  signatures (Transaction_ t') = signatures (Transaction_ t) /\
  frozen (Transaction_ t') = frozen (Transaction_ t) /\
  proto.Memo (pbBody (Transaction_ t')) = proto.Memo (pbBody (Transaction_ t)) /\
  proto.TransactionValidDuration (pbBody (Transaction_ t'))
  = proto.TransactionValidDuration (pbBody (Transaction_ t)) /\
  pb t' = pb t /\
  tokenIndexes t' = tokenIndexes t /\
  proto.NodeAccountID (pbBody (Transaction_ t'))
  = proto.NodeAccountID (pbBody (Transaction_ t)) /\
  proto.TransactionFee (pbBody (Transaction_ t'))
  = Some (default (defaultFee client)
            (proto.TransactionFee (pbBody (Transaction_ t)))) /\
  ((e = errNoClientOrTransactionID /\
    proto.Data (pbBody (Transaction_ t')) = proto.Data (pbBody (Transaction_ t))) \/
   (e = errNoClientOrNodeID /\
    proto.Data (pbBody (Transaction_ t'))
    = Some proto.TransactionBody_CryptoTransfer)).
Proof.
  intros Hrun.
  pose proof (FreezeWith_error _ _ _ _ Hrun) as Hkept. cbv zeta in Hkept.
  pose proof (FreezeWith_error_changes _ _ _ _ Hrun) as Hchanged.
  destruct Hkept as (? & ? & ? & ? & ? & ? & ? & ? & ? & ?).
  destruct Hchanged as (? & ? & ?).
  repeat (split; [assumption|]). assumption.
Qed.

Lemma FreezeWith_error_keeps_frozen_state_witness :
  let t := @NewTransferTransaction Sample.toyCollaborators in
  let t' := final_state
              (@FreezeWith Sample.toyCollaborators
                 (Some Sample.clientWithoutOperator) t) in
  id (Transaction_ t') = id (Transaction_ t) /\
  proto.TransactionID (pbBody (Transaction_ t'))
  = proto.TransactionID (pbBody (Transaction_ t)) /\
  nodeIDs (Transaction_ t') = nodeIDs (Transaction_ t) /\
  transactions (Transaction_ t') = transactions (Transaction_ t) /\
  signatures (Transaction_ t') = signatures (Transaction_ t) /\
  frozen (Transaction_ t') = frozen (Transaction_ t) /\
  proto.Memo (pbBody (Transaction_ t')) = proto.Memo (pbBody (Transaction_ t)) /\
  proto.TransactionValidDuration (pbBody (Transaction_ t'))
  = proto.TransactionValidDuration (pbBody (Transaction_ t)) /\
  pb t' = pb t /\
  tokenIndexes t' = tokenIndexes t /\
  proto.NodeAccountID (pbBody (Transaction_ t'))
  = proto.NodeAccountID (pbBody (Transaction_ t)) /\
  proto.TransactionFee (pbBody (Transaction_ t')) = Some (mkHbar 200000000) /\
  ((errNoClientOrTransactionID = errNoClientOrTransactionID /\
    proto.Data (pbBody (Transaction_ t')) = proto.Data (pbBody (Transaction_ t))) \/
   (errNoClientOrTransactionID = errNoClientOrNodeID /\
    proto.Data (pbBody (Transaction_ t'))
    = Some proto.TransactionBody_CryptoTransfer)).
Proof.
  exact (@FreezeWith_error_keeps_frozen_state Sample.toyCollaborators
           (@NewTransferTransaction Sample.toyCollaborators)
           (final_state
              (@FreezeWith Sample.toyCollaborators
                 (Some Sample.clientWithoutOperator)
                 (@NewTransferTransaction Sample.toyCollaborators)))
           (Some Sample.clientWithoutOperator) errNoClientOrTransactionID eq_refl).
Defined.

(** *** Auto-freeze, operator signature, token groups *)

Section MoreSigning.
Context `{Collaborators}.

Lemma keyAlreadySigned_fresh {A} publicKey b (l : list A) :
  signatures b = (fun _ => emptySignatureMap) <$> l ->
  keyAlreadySigned publicKey b = false.
Proof.
  intros Hs. apply not_true_iff_false.
  intros (m & Hm & Hin)%keyAlreadySigned_spec.
  rewrite Hs in Hm. apply list_elem_of_fmap in Hm as (? & -> & _).
  by apply elem_of_nil in Hin.
Qed.

Lemma signAll_lookup publicKey signer b i body :
  length (signatures b) = length (transactions b) ->
  transactions b !! i = Some body ->
  exists m, signAll publicKey signer b !! i = Some m /\
            toSignaturePairProtobuf publicKey (signer (proto.GetBodyBytes body))
            ∈ proto.SigPair m.
Proof.
  intros Hlen Hbody.
  destruct (lookup_lt_is_Some_2 (signatures b) i) as [m Hm].
  { rewrite Hlen. by eapply lookup_lt_Some. }
  exists (addSignature publicKey signer body m). split.
  - unfold signAll. rewrite lookup_zip_with, Hbody. cbn. by rewrite Hm.
  - cbn. apply elem_of_app. right. left.
Qed.
End MoreSigning.

(** C7, as stated, fails: [SignWith] on a new transaction returns with the
    transaction still not frozen; its auto-freeze runs without a client and
    cannot make up a TransactionID. *)
Lemma SignWith_new_stays_mutable :
  ~ (isFrozen (Transaction_ (@NewTransferTransaction Sample.toyCollaborators)) = false ->
     exists t',
       @SignWith Sample.toyCollaborators Sample.otherKey Sample.toySigner
         (@NewTransferTransaction Sample.toyCollaborators) = Normal tt t' /\
       isFrozen (Transaction_ t') = true).
Proof.
  intros Hclaim. destruct (Hclaim eq_refl) as (t' & Hrun & Hf).
  injection Hrun as <-. discriminate Hf.
Qed.

(** C7, amended: on a transaction that is not frozen but has its
    TransactionID and a non-empty node list set, [SignWith] (and [Sign], which
    calls it) freezes first: afterwards the transaction is frozen, has one
    body per node, and the signature map beside each body holds the given
    key's signature over that body. *)
Theorem SignWith_freezes_when_id_and_nodes_set `{Collaborators}
    (t : TransferTransaction) (publicKey : Key.PublicKey) (signer : TransactionSigner) :
  isFrozen (Transaction_ t) = false ->
  is_Some (proto.TransactionID (pbBody (Transaction_ t))) ->
  nodeIDs (Transaction_ t) <> [] ->
  (forall privateKey,
     Sign privateKey t
     = SignWith (PrivateKey_PublicKey privateKey) (PrivateKey_Sign privateKey) t) /\
  exists t',
    SignWith publicKey signer t = Normal tt t' /\
    isFrozen (Transaction_ t') = true /\
    length (transactions (Transaction_ t')) = length (nodeIDs (Transaction_ t)) /\
    forall i body,
      transactions (Transaction_ t') !! i = Some body ->
      exists m,
        signatures (Transaction_ t') !! i = Some m /\
        toSignaturePairProtobuf publicKey (signer (proto.GetBodyBytes body))
        ∈ proto.SigPair m.
Proof.
  intros Hf Hid Hnodes. split; [done|].
  destruct (Freeze_explicit t Hf Hid Hnodes) as (t0 & Hfreeze & Hn).
  destruct (FreezeWith_success None t t0 Hf Hfreeze) as (Hz & Htx & Hsg & _).
  assert ((if isFrozen (Transaction_ t) then t else final_state (Freeze t)) = t0)
    as Hauto by (by rewrite Hf, Hfreeze).
  assert (length (signatures (Transaction_ t0)) = length (transactions (Transaction_ t0)))
    as Hlen by (by rewrite Htx, Hsg, !length_fmap).
  pose proof (keyAlreadySigned_fresh publicKey _ _ Hsg) as Hk.
  exists (set_Transaction
            (set_signatures (signAll publicKey signer (Transaction_ t0))
               (Transaction_ t0)) t0).
  split; [|split; [|split]].
  - rewrite <- Hauto in Hlen, Hk.
    rewrite (SignWith_unsigned publicKey signer t Hlen Hk). by rewrite Hauto.
  - done.
  - cbn. by rewrite Htx, length_fmap, Hn.
  - intros i body Hbody. cbn in *. by apply signAll_lookup.
Qed.

Lemma SignWith_freezes_when_id_and_nodes_set_witness :
  exists t',
    @SignWith Sample.toyCollaborators Sample.otherKey Sample.toySigner
      Sample.readyToFreeze = Normal tt t' /\
    isFrozen (Transaction_ t') = true /\
    length (transactions (Transaction_ t')) = 2.
Proof.
  destruct (proj2 (@SignWith_freezes_when_id_and_nodes_set Sample.toyCollaborators
                     Sample.readyToFreeze Sample.otherKey Sample.toySigner
                     eq_refl (ex_intro _ _ eq_refl) ltac:(discriminate)))
    as (t' & Hrun & Hf & Hlen & _).
  exists t'. split; [exact Hrun|]. split; [exact Hf|exact Hlen].
Defined.



(** C10: in every transaction built through the methods each token has at
    most one transfer list; [n] calls of [AddTokenTransfer] for one token on a
    mutable transaction add exactly their [n] entries, in order, under that
    token in [GetTokenTransfers] and touch no other token; on a new
    transaction the result is the single group of those [n] entries. *)
Theorem AddTokenTransfer_one_list_per_token `{Collaborators} :
  (forall t, reachable t -> NoDup (tokensOf t)) /\
  (forall t tokenID calls,
     reachable t -> isFrozen (Transaction_ t) = false -> calls <> [] ->
     let t' := addTokenTransfers tokenID calls t in
     GetTokenTransfers t' !! tokenID
     = Some (default [] (GetTokenTransfers t !! tokenID) ++ (transferOf <$> calls)) /\
     forall k, k <> tokenID -> GetTokenTransfers t' !! k = GetTokenTransfers t !! k) /\
  (forall tokenID calls,
     calls <> [] ->
     GetTokenTransfers (addTokenTransfers tokenID calls NewTransferTransaction)
     = {[ tokenID := transferOf <$> calls ]}).
Proof.
  assert (forall t tokenID calls,
     reachable t -> isFrozen (Transaction_ t) = false -> calls <> [] ->
     let t' := addTokenTransfers tokenID calls t in
     GetTokenTransfers t' !! tokenID
     = Some (default [] (GetTokenTransfers t !! tokenID) ++ (transferOf <$> calls)) /\
     forall k, k <> tokenID -> GetTokenTransfers t' !! k = GetTokenTransfers t !! k)
    as Hgen.
  { intros t tokenID calls (_ & _ & _ & Ht)%reachable_wf Hf Hne t'.
    destruct (addTokenTransfers_mutable tokenID calls t Hf Ht) as (_ & _ & Hk & Hother).
    fold t' in Hk, Hother. split.
    - rewrite !GetTokenTransfers_lookup, Hk.
      destruct calls as [|c calls]; [done|].
      destruct (entriesFor tokenID (proto.TokenTransfers (pb t))); done.
    - intros k Hk'. rewrite !GetTokenTransfers_lookup, Hother; done. }
  split; [|split; [exact Hgen|]].
  - by intros t (_ & _ & _ & [Hnd _])%reachable_wf.
  - intros tokenID calls Hne. apply map_eq. intros k.
    destruct (Hgen NewTransferTransaction tokenID calls (reachable_new) eq_refl Hne)
      as [Hk Hother].
    destruct (decide (k = tokenID)) as [->|Hk'].
    + rewrite Hk, lookup_singleton_eq. done.
    + rewrite Hother, lookup_singleton_ne by done. done.
Qed.

Lemma AddTokenTransfer_one_list_per_token_witness :
  @GetTokenTransfers Sample.toyCollaborators
    (@addTokenTransfers Sample.toyCollaborators (Sample.token 7)
       [(Sample.account 9, 5%Z); (Sample.account 10, (-5)%Z)]
       (@NewTransferTransaction Sample.toyCollaborators))
  = {[ Sample.token 7 :=
         [ mkTokenTransfer (Sample.account 9) 5;
           mkTokenTransfer (Sample.account 10) (-5) ] ]}.
Proof.
  apply (proj2 (proj2 (@AddTokenTransfer_one_list_per_token Sample.toyCollaborators))
           (Sample.token 7) [(Sample.account 9, 5%Z); (Sample.account 10, (-5)%Z)]).
  discriminate.
Defined.

(** * Further properties of the source *)

(** ** What [GetTokenTransfers] reads *)

Section TokenGroups.

Context `{Collaborators}.

Lemma joinEntries_None xs :
  joinEntries None xs = if decide (xs = []) then None else Some xs.
Proof. by destruct xs. Qed.

Lemma entryCount_insert_fresh k l (m : gmap TokenID (list TokenTransfer)) :
  m !! k = None -> entryCount (<[k:=l]> m) = length l + entryCount m.
Proof.
  intros Hk. unfold entryCount.
  rewrite map_fold_insert_L; [done| |done]. intros. lia.
Qed.

Lemma entryCount_appendAt k x (m : gmap TokenID (list TokenTransfer)) :
  entryCount (appendAt k x m) = S (entryCount m).
Proof.
  unfold appendAt. destruct (m !! k) as [l|] eqn:Hk; cbn.
  - rewrite <- insert_delete_eq.
    rewrite entryCount_insert_fresh by apply lookup_delete_eq.
    rewrite <- (insert_delete_id m k l Hk) at 2.
    rewrite entryCount_insert_fresh by apply lookup_delete_eq.
    rewrite length_app. cbn. lia.
  - rewrite entryCount_insert_fresh by done. cbn. lia.
Qed.

Lemma entryCount_inner k (xs : list proto.AccountAmount) :
  forall m : gmap TokenID (list TokenTransfer),
  entryCount (foldl (fun m aa => appendAt k (tokenTransferFromProtobuf aa) m) m xs)
  = entryCount m + length xs.
Proof.
  induction xs as [|a xs IH]; intros m; cbn [foldl length]; [lia|].
  rewrite IH, entryCount_appendAt. lia.
Qed.

Lemma entryCount_outer (l : list proto.TokenTransferList) :
  forall m : gmap TokenID (list TokenTransfer),
  entryCount
    (foldl (fun m tokenTransfer =>
              foldl (fun m accountAmount =>
                       let token :=
                         tokenIDFromProtobuf (proto.TokenTransferList_Token tokenTransfer) in
                       appendAt token (tokenTransferFromProtobuf accountAmount) m)
                    m (proto.TokenTransferList_Transfers tokenTransfer))
           m l)
  = entryCount m + transferCount l.
Proof.
  induction l as [|tt l IH]; intros m; cbn [foldl]; [unfold transferCount; cbn; lia|].
  rewrite IH. cbv zeta. rewrite entryCount_inner.
  unfold transferCount. cbn. lia.
Qed.

Lemma AddTokenTransfer_hbar_frame k a v t :
  proto.Transfers (pb (final_state (AddTokenTransfer k a v t)))
  = proto.Transfers (pb t) /\
  Transaction_ (final_state (AddTokenTransfer k a v t)) = Transaction_ t.
Proof.
  unfold AddTokenTransfer. destruct (isFrozen (Transaction_ t)) eqn:Hf.
  - by rewrite guarded_frozen.
  - rewrite guarded_mutable by done. run_method.
    repeat case_match; simplify_eq/=; done.
Qed.

Lemma callsFor_cons k c calls :
  callsFor k (c :: calls)
  = (if decide (c.1.1 = k) then [transferOf (c.1.2, c.2)] else []) ++ callsFor k calls.
Proof.
  unfold callsFor. rewrite filter_cons. by case_decide.
Qed.

Lemma addTokenCalls_mutable calls : forall t,
  isFrozen (Transaction_ t) = false -> tokens_wf t ->
  let t' := addTokenCalls calls t in
  Transaction_ t' = Transaction_ t /\
  tokens_wf t' /\
  forall k, entriesFor k (proto.TokenTransfers (pb t'))
            = entriesFor k (proto.TokenTransfers (pb t)) ++ callsFor k calls.
Proof.
  induction calls as [|[[kc a] v] calls IH]; intros t Hf Hwf;
    cbv zeta; unfold addTokenCalls; cbn [foldl fst snd].
  - split; [done|]. split; [done|]. intros k. unfold callsFor. cbn.
    by rewrite app_nil_r.
  - destruct (AddTokenTransfer_mutable kc a v t Hf Hwf)
      as (t1 & Hrun & Hb & Hwf1 & Hk & Hother).
    unfold addTokenCalls in IH. rewrite Hrun. cbn [final_state].
    destruct (IH t1) as (Hb' & Hwf' & Hk'); [by rewrite Hb|done|].
    split; [congruence|]. split; [done|].
    intros k. rewrite Hk', callsFor_cons. cbn [fst snd].
    case_decide as Hkc.
    + subst k. rewrite Hk, <- app_assoc. done.
    + rewrite Hother by congruence. done.
Qed.

Lemma addTokenCalls_hbar_frame calls : forall t,
  proto.Transfers (pb (addTokenCalls calls t)) = proto.Transfers (pb t).
Proof.
  induction calls as [|c calls IH]; intros t; [done|]. cbn.
  unfold addTokenCalls in IH. rewrite IH.
  apply AddTokenTransfer_hbar_frame.
Qed.

End TokenGroups.

(** X1: for any transfer body, reachable or not, [GetTokenTransfers] maps a
    token to the transfers of all the lists that carry this token,
    concatenated in list order, and has no key for a token without a
    transfer: it never maps a token to the empty list. *)
Theorem GetTokenTransfers_groups `{Collaborators}
    (t : TransferTransaction) (k : TokenID) :
  let recorded := entriesFor k (proto.TokenTransfers (pb t)) in
  GetTokenTransfers t !! k = (if decide (recorded = []) then None else Some recorded) /\
  (forall l, GetTokenTransfers t !! k = Some l -> l <> []).
Proof.
  intros recorded. rewrite GetTokenTransfers_lookup, joinEntries_None.
  fold recorded. split; [done|].
  intros l. case_decide; congruence.
Qed.

Lemma GetTokenTransfers_groups_witness :
  [ mkTokenTransfer (Sample.account 9) 5 ] <> [].
Proof.
  apply (proj2 (@GetTokenTransfers_groups Sample.toyCollaborators
                  (@addTokenCalls Sample.toyCollaborators
                     [(Sample.token 7, Sample.account 9, 5%Z)]
                     (@NewTransferTransaction Sample.toyCollaborators))
                  (Sample.token 7))).
  reflexivity.
Defined.

(** X2: [GetTokenTransfers] neither drops nor repeats a transfer: the
    lists of its result hold, together, as many entries as the token
    transfer lists of the body. *)
Theorem GetTokenTransfers_keeps_every_transfer `{Collaborators}
    (t : TransferTransaction) :
  entryCount (GetTokenTransfers t) = transferCount (proto.TokenTransfers (pb t)).
Proof.
  unfold GetTokenTransfers. rewrite entryCount_outer.
  unfold entryCount. by rewrite map_fold_empty.
Qed.

(** X3: calls of [AddTokenTransfer] for several tokens, interleaved in any
    way, are grouped by token with the call order kept inside each group:
    after the run, a token's entry is its former entry followed by the
    run's calls for this token.  The run touches neither the embedded
    transaction nor the hbar transfers. *)
Theorem AddTokenTransfer_groups_interleaved_calls `{Collaborators}
    (t : TransferTransaction) (calls : list (TokenID * AccountID * Z)) (k : TokenID) :
  reachable t -> isFrozen (Transaction_ t) = false ->
  let t' := addTokenCalls calls t in
  GetTokenTransfers t' !! k
  = joinEntries (GetTokenTransfers t !! k) (callsFor k calls) /\
  Transaction_ t' = Transaction_ t /\
  proto.Transfers (pb t') = proto.Transfers (pb t).
Proof.
  intros (_ & _ & _ & Ht)%reachable_wf Hf t'.
  destruct (addTokenCalls_mutable calls t Hf Ht) as (Hb & _ & Hk).
  fold t' in Hb, Hk. split; [|split; [done|]].
  - by rewrite !GetTokenTransfers_lookup, Hk, joinEntries_app.
  - apply addTokenCalls_hbar_frame.
Qed.

Lemma AddTokenTransfer_groups_interleaved_calls_witness :
  @GetTokenTransfers Sample.toyCollaborators
    (@addTokenCalls Sample.toyCollaborators
       [ (Sample.token 7, Sample.account 9, 5%Z);
         (Sample.token 8, Sample.account 9, 1%Z);
         (Sample.token 7, Sample.account 10, (-5)%Z) ]
       (@NewTransferTransaction Sample.toyCollaborators))
    !! Sample.token 7
  = Some [ mkTokenTransfer (Sample.account 9) 5;
           mkTokenTransfer (Sample.account 10) (-5) ].
Proof.
  exact (proj1 (@AddTokenTransfer_groups_interleaved_calls Sample.toyCollaborators
                  (@NewTransferTransaction Sample.toyCollaborators)
                  [ (Sample.token 7, Sample.account 9, 5%Z);
                    (Sample.token 8, Sample.account 9, 1%Z);
                    (Sample.token 7, Sample.account 10, (-5)%Z) ]
                  (Sample.token 7) (@reachable_new Sample.toyCollaborators) eq_refl)).
Defined.

(** X4: on a transaction built through the methods the index that
    [AddTokenTransfer] takes from [tokenIndexes] is always in range: the
    call panics with [TransactionIsFrozen], changing nothing, when the
    transaction is frozen, and returns normally otherwise. *)
Theorem AddTokenTransfer_index_in_range `{Collaborators}
    (t : TransferTransaction) (k : TokenID) (a : AccountID) (v : Z) :
  reachable t ->
  (isFrozen (Transaction_ t) = true /\
   AddTokenTransfer k a v t = Panic TransactionIsFrozen t) \/
  (isFrozen (Transaction_ t) = false /\
   exists t', AddTokenTransfer k a v t = Normal tt t').
Proof.
  intros (_ & _ & _ & Ht)%reachable_wf.
  destruct (isFrozen (Transaction_ t)) eqn:Hf.
  - left. split; [done|]. unfold AddTokenTransfer. by rewrite guarded_frozen.
  - right. split; [done|].
    destruct (AddTokenTransfer_mutable k a v t Hf Ht) as (t' & Hrun & _). eauto.
Qed.

Lemma AddTokenTransfer_index_in_range_witness :
  (isFrozen (Transaction_ Sample.readyToFreeze) = true /\
   @AddTokenTransfer Sample.toyCollaborators (Sample.token 7) (Sample.account 9) 5
     Sample.readyToFreeze = Panic TransactionIsFrozen Sample.readyToFreeze) \/
  (isFrozen (Transaction_ Sample.readyToFreeze) = false /\
   exists t',
     @AddTokenTransfer Sample.toyCollaborators (Sample.token 7) (Sample.account 9) 5
       Sample.readyToFreeze = Normal tt t').
Proof.
  apply (@AddTokenTransfer_index_in_range Sample.toyCollaborators).
  apply reachable_runAll. constructor.
Defined.

(** ** Which methods write to the transfer body *)

Section Frames.

Context `{Collaborators}.

Lemma embedded_frame {A} (m : M Transaction A) t :
  pb (final_state (embedded m t)) = pb t /\
  tokenIndexes (final_state (embedded m t)) = tokenIndexes t.
Proof. unfold embedded. by destruct (m (Transaction_ t)). Qed.

Lemma guarded_embedded_frame (m : M Transaction unit) t :
  pb (final_state ((embedded requireNotFrozen;; embedded m) t)) = pb t /\
  tokenIndexes (final_state ((embedded requireNotFrozen;; embedded m) t))
  = tokenIndexes t.
Proof.
  destruct (isFrozen (Transaction_ t)) eqn:Hf.
  - by rewrite guarded_frozen.
  - rewrite guarded_mutable by done. apply embedded_frame.
Qed.

Lemma autoFreeze_frame client t :
  let t0 := if isFrozen (Transaction_ t) then t
            else final_state (FreezeWith client t) in
  pb t0 = pb t /\ tokenIndexes t0 = tokenIndexes t.
Proof. cbv zeta. case_match; [done|]. apply FreezeWith_frame. Qed.

Lemma SignWith_frame publicKey signer t :
  pb (final_state (SignWith publicKey signer t)) = pb t /\
  tokenIndexes (final_state (SignWith publicKey signer t)) = tokenIndexes t.
Proof.
  rewrite SignWith_unfold. cbv zeta.
  destruct (autoFreeze_frame None t) as [Hpb Hidx]. unfold Freeze.
  set (t0 := if isFrozen (Transaction_ t) then t else _) in *.
  destruct (keyAlreadySigned publicKey (Transaction_ t0)); [done|].
  destruct (embedded_frame
              (signEach publicKey signer
                 (seq 0 (length (transactions (Transaction_ t0))))) t0)
    as [-> ->].
  done.
Qed.

Lemma run_frame (c : call) (t : TransferTransaction) :
  changesTransfers c = false ->
  pb (run c t) = pb t /\ tokenIndexes (run c t) = tokenIndexes t.
Proof.
  intros Hc. destruct c; try discriminate Hc; cbn [run].
  - apply guarded_embedded_frame.
  - apply guarded_embedded_frame.
  - apply guarded_embedded_frame.
  - unfold SetTransactionID.
    destruct (isFrozen (Transaction_ t)) eqn:Hf.
    + by rewrite guarded_frozen.
    + rewrite guarded_mutable by done. run_method. done.
  - apply guarded_embedded_frame.
  - apply FreezeWith_frame.
  - apply SignWith_frame.
  - apply SignWith_frame.
  - rewrite SignWithOperator_unfold.
    destruct client as [cl|]; [|done]. destruct (operator cl) as [op|]; [|done].
    cbv zeta. destruct (autoFreeze_frame (Some cl) t) as [Hpb Hidx].
    set (t0 := if isFrozen (Transaction_ t) then t else _) in *.
    destruct (SignWith_frame (publicKey op) (signer op) t0) as [Hpb' Hidx'].
    unfold mbind, M_bind.
    destruct (SignWith (publicKey op) (signer op) t0); cbn in *; split; congruence.
  - rewrite Execute_state, Execute_autoSign_unfold. cbv zeta.
    destruct (autoFreeze_frame client t) as [Hpb Hidx].
    set (t0 := if isFrozen (Transaction_ t) then t else _) in *.
    destruct client as [cl|]; [|done].
    destruct (negb _ && _); [|done].
    destruct (operator cl) as [op|]; [|done].
    destruct (SignWith_frame (GetOperatorPublicKey cl) (signer op) t0) as [-> ->].
    done.
Qed.

Lemma AddHbarTransfer_mutable a h t :
  isFrozen (Transaction_ t) = false ->
  AddHbarTransfer a h t
  = Normal tt
      (set_pb {| proto.Transfers :=
                   {| proto.AccountAmounts :=
                        proto.AccountAmounts (proto.Transfers (pb t))
                        ++ [hbarAmount (a, h)] |};
                 proto.TokenTransfers := proto.TokenTransfers (pb t) |} t).
Proof.
  intros Hf. unfold AddHbarTransfer. by rewrite guarded_mutable.
Qed.

Lemma AddHbarTransfer_token_frame a h t :
  proto.TokenTransfers (pb (final_state (AddHbarTransfer a h t)))
  = proto.TokenTransfers (pb t).
Proof.
  destruct (isFrozen (Transaction_ t)) eqn:Hf.
  - unfold AddHbarTransfer. by rewrite guarded_frozen.
  - by rewrite AddHbarTransfer_mutable.
Qed.

Lemma lists_nonempty_AddTokenTransfer k a v t :
  lists_nonempty t -> lists_nonempty (final_state (AddTokenTransfer k a v t)).
Proof.
  intros Hne. unfold AddTokenTransfer.
  destruct (isFrozen (Transaction_ t)) eqn:Hf.
  - by rewrite guarded_frozen.
  - rewrite guarded_mutable by done. run_method. unfold lists_nonempty in *.
    repeat case_match; simplify_eq/=; try done.
    + apply Forall_insert; [done|]. cbn.
      by destruct (proto.TokenTransferList_Transfers _).
    + apply Forall_app. split; [done|]. by constructor.
Qed.

Lemma reachable_lists_nonempty t : reachable t -> lists_nonempty t.
Proof.
  induction 1 as [|c t Hr IH]; [by constructor|].
  destruct (changesTransfers c) eqn:Hc.
  - destruct c; try discriminate Hc; cbn [run].
    + unfold lists_nonempty. by rewrite AddHbarTransfer_token_frame.
    + by apply lists_nonempty_AddTokenTransfer.
  - unfold lists_nonempty. by destruct (run_frame c t Hc) as [-> _].
Qed.

Lemma entriesFor_present k (l : list proto.TokenTransferList) :
  Forall (fun tt => proto.TokenTransferList_Transfers tt <> []) l ->
  k ∈ tokenOf <$> l -> entriesFor k l <> [].
Proof.
  induction l as [|tt l IH]; intros Hne Hin; [by apply elem_of_nil in Hin|].
  apply Forall_cons in Hne as [Htt Hne]. rewrite entriesFor_cons.
  rewrite fmap_cons in Hin. case_decide as Hk.
  - destruct (proto.TokenTransferList_Transfers tt); done.
  - apply elem_of_cons in Hin as [?|Hin]; [congruence|]. cbn. by apply IH.
Qed.

End Frames.

(** X5: of the twelve methods only [AddHbarTransfer] and [AddTokenTransfer]
    write to the transfer body: every setter of a common field, [FreezeWith],
    [SignWith], [Sign], [SignWithOperator] and [Execute] leave [pb] and
    [tokenIndexes], and so the result of [GetTokenTransfers], as they were,
    on any transaction and however the call ends. *)
Theorem only_transfer_setters_change_transfers `{Collaborators}
    (c : call) (t : TransferTransaction) :
  changesTransfers c = false ->
  pb (run c t) = pb t /\
  tokenIndexes (run c t) = tokenIndexes t /\
  GetTokenTransfers (run c t) = GetTokenTransfers t.
Proof.
  intros Hc. destruct (run_frame c t Hc) as [Hpb Hidx].
  split; [done|]. split; [done|]. unfold GetTokenTransfers. by rewrite Hpb.
Qed.

Lemma only_transfer_setters_change_transfers_witness :
  pb (@run Sample.toyCollaborators (CallExecute (Some Sample.sampleClient))
        Sample.readyToFreeze)
  = pb Sample.readyToFreeze.
Proof.
  exact (proj1 (@only_transfer_setters_change_transfers Sample.toyCollaborators
                  (CallExecute (Some Sample.sampleClient)) Sample.readyToFreeze
                  eq_refl)).
Defined.

(** X6: [AddHbarTransfer] appends, it does not merge: on a mutable
    transaction a run of calls adds one entry per call to the hbar transfer
    list, in call order and also when an account repeats, and touches nothing
    else; on a frozen transaction the run changes nothing. *)
Theorem AddHbarTransfer_appends_in_call_order `{Collaborators}
    (t : TransferTransaction) (calls : list (AccountID * Hbar)) :
  let t' := addHbarTransfers calls t in
  (isFrozen (Transaction_ t) = true -> t' = t) /\
  (isFrozen (Transaction_ t) = false ->
   proto.AccountAmounts (proto.Transfers (pb t'))
   = proto.AccountAmounts (proto.Transfers (pb t)) ++ (hbarAmount <$> calls) /\
   proto.TokenTransfers (pb t') = proto.TokenTransfers (pb t) /\
   tokenIndexes t' = tokenIndexes t /\
   Transaction_ t' = Transaction_ t).
Proof.
  cbv zeta. split.
  - intros Hf. induction calls as [|[a h] calls IH]; [done|].
    unfold addHbarTransfers in *. cbn [foldl fst snd].
    unfold AddHbarTransfer at 2. by rewrite guarded_frozen.
  - revert t. induction calls as [|[a h] calls IH]; intros t Hf.
    + cbn. by rewrite app_nil_r.
    + unfold addHbarTransfers in *. cbn [foldl fst snd].
      rewrite AddHbarTransfer_mutable by done. cbn [final_state].
      destruct (IH (set_pb
                      {| proto.Transfers :=
                           {| proto.AccountAmounts :=
                                proto.AccountAmounts (proto.Transfers (pb t))
                                ++ [hbarAmount (a, h)] |};
                         proto.TokenTransfers := proto.TokenTransfers (pb t) |} t))
        as (Ha & Htt & Hidx & Hb); [done|].
      rewrite Ha, Htt, Hidx, Hb. cbn. by rewrite <- app_assoc.
Qed.

Lemma AddHbarTransfer_appends_in_call_order_witness :
  proto.AccountAmounts
    (proto.Transfers
       (pb (@addHbarTransfers Sample.toyCollaborators
              [ (Sample.account 9, mkHbar 5); (Sample.account 9, mkHbar (-5)) ]
              Sample.readyToFreeze)))
  = [ proto.mkAccountAmount (proto.mkAccountID 0 0 9) 5;
      proto.mkAccountAmount (proto.mkAccountID 0 0 9) (-5) ].
Proof.
  exact (proj1 (proj2 (@AddHbarTransfer_appends_in_call_order Sample.toyCollaborators
                         Sample.readyToFreeze
                         [ (Sample.account 9, mkHbar 5);
                           (Sample.account 9, mkHbar (-5)) ])
                  eq_refl)).
Defined.

(** X7: on a transaction built through the methods [tokenIndexes] and the
    token transfer lists describe each other: [tokenIndexes] sends a token to
    [i] exactly when list [i] is this token's, it has as many keys as there
    are lists, and these keys are the keys of [GetTokenTransfers]. *)
Theorem GetTokenTransfers_keys_are_tokenIndexes `{Collaborators}
    (t : TransferTransaction) :
  reachable t ->
  dom (GetTokenTransfers t) = dom (tokenIndexes t) /\
  size (tokenIndexes t) = length (proto.TokenTransfers (pb t)) /\
  forall k i, tokenIndexes t !! k = Some i <->
              exists tt, proto.TokenTransfers (pb t) !! i = Some tt /\ tokenOf tt = k.
Proof.
  intros Hr. pose proof (reachable_lists_nonempty t Hr) as Hne.
  apply reachable_wf in Hr as (_ & _ & _ & Hnd & Hidx).
  assert (forall k, k ∈ dom (tokenIndexes t) <-> k ∈ tokensOf t) as Hdom.
  { intros k. rewrite elem_of_dom, list_elem_of_lookup. unfold is_Some.
    split; intros [i Hi]; exists i; by apply Hidx. }
  split; [|split].
  - apply set_eq. intros k. rewrite Hdom, elem_of_dom.
    rewrite GetTokenTransfers_lookup, joinEntries_None. split.
    + intros Hs. destruct (decide (k ∈ tokensOf t)) as [|Hk]; [done|].
      rewrite entriesFor_absent in Hs by done. by destruct Hs.
    + intros Hk. rewrite decide_False; [done|]. by apply entriesFor_present.
  - rewrite <- size_dom.
    assert (dom (tokenIndexes t) = list_to_set (tokensOf t)) as ->.
    { apply set_eq. intros k. by rewrite Hdom, elem_of_list_to_set. }
    rewrite size_list_to_set by done. unfold tokensOf. by rewrite length_fmap.
  - intros k i. rewrite Hidx. unfold tokensOf. rewrite list_lookup_fmap.
    split.
    + intros Hl. destruct (proto.TokenTransfers (pb t) !! i) as [tt|]; [|done].
      exists tt. split; [done|]. by injection Hl.
    + intros (tt & -> & <-). done.
Qed.

Lemma GetTokenTransfers_keys_are_tokenIndexes_witness :
  let t := @runAll Sample.toyCollaborators
             [ CallAddTokenTransfer (Sample.token 7) (Sample.account 9) 5;
               CallAddTokenTransfer (Sample.token 8) (Sample.account 9) 1;
               CallAddTokenTransfer (Sample.token 7) (Sample.account 10) (-5) ]
             (@NewTransferTransaction Sample.toyCollaborators) in
  size (tokenIndexes t) = length (proto.TokenTransfers (pb t)).
Proof.
  apply (@GetTokenTransfers_keys_are_tokenIndexes Sample.toyCollaborators).
  apply reachable_runAll. constructor.
Defined.

(** ** Network ids, signatures, operator and execution *)

(** X8: [Network] gives distinct networks distinct ids: two network names
    for which it returns the same string are the same name. *)
Theorem Network_ids_are_distinct (n m : NetworkName.NetworkName) (s : string) :
  NetworkName.Network n = NetworkName.Returns s ->
  NetworkName.Network m = NetworkName.Returns s ->
  n = m.
Proof.
  unfold NetworkName.Network. repeat case_decide; congruence.
Qed.

Lemma Network_ids_are_distinct_witness :
  NetworkName.NetworkNameTestnet = "testnet".
Proof.
  exact (Network_ids_are_distinct NetworkName.NetworkNameTestnet "testnet" "1"
           eq_refl eq_refl).
Defined.

Section SigningMore.

Context `{Collaborators}.

Lemma signerOf_toSignaturePairProtobuf publicKey signature :
  signerOf (toSignaturePairProtobuf publicKey signature) = publicKey.
Proof. by destruct publicKey. Qed.

Lemma entriesOf_addSignature_other k' publicKey signer body m :
  k' <> publicKey ->
  entriesOf k' (addSignature publicKey signer body m) = entriesOf k' m.
Proof.
  intros Hne. unfold entriesOf, addSignature. cbn [proto.SigPair].
  rewrite filter_app, filter_cons_False, filter_nil, app_nil_r; [done|].
  rewrite signerOf_toSignaturePairProtobuf. congruence.
Qed.

Lemma zip_with_addSignature_others k' publicKey signer sigs : forall txs,
  k' <> publicKey -> length sigs = length txs ->
  Forall2 (fun m m' => entriesOf k' m' = entriesOf k' m) sigs
          (zip_with (addSignature publicKey signer) txs sigs).
Proof.
  induction sigs as [|m sigs IH]; intros [|body txs] Hne Hlen;
    try discriminate Hlen; cbn; constructor.
  - by apply entriesOf_addSignature_other.
  - apply IH; [done|]. cbn in Hlen. lia.
Qed.

Lemma SignWith_one_entry publicKey signer t :
  wf t ->
  exists t1,
    SignWith publicKey signer t = Normal tt t1 /\
    Forall (fun m => length (entriesOf publicKey m) = 1)
           (signatures (Transaction_ t1)).
Proof.
  intros Hwf. pose proof (wf_autoFreeze t Hwf) as Hwf0.
  set (t0 := if isFrozen (Transaction_ t) then t else final_state (Freeze t)) in *.
  destruct (keyAlreadySigned publicKey (Transaction_ t0)) eqn:Hk.
  - exists t0. split; [by apply SignWith_signed|].
    apply one_entry_each; [done|]. by apply signed_everywhere.
  - pose proof Hwf0 as ((Hlen & _) & _).
    exists (set_Transaction
              (set_signatures (signAll publicKey signer (Transaction_ t0))
                 (Transaction_ t0)) t0).
    split; [exact (SignWith_unsigned publicKey signer t Hlen Hk)|].
    apply one_entry_each; [by apply wf_set_signAll|]. apply signAll_signed.
Qed.

End SigningMore.

(** X9: a key that has not signed signs every per-node body at its own
    index: on a frozen transaction built through the methods, [SignWith]
    appends to the signature map beside body [i] the pair of the key and the
    signer's output on the bytes of body [i], and changes nothing but the
    signature maps. *)
Theorem SignWith_signs_each_node_body `{Collaborators}
    (t : TransferTransaction) (publicKey : Key.PublicKey) (signer : TransactionSigner) :
  reachable t ->
  isFrozen (Transaction_ t) = true ->
  keyAlreadySigned publicKey (Transaction_ t) = false ->
  exists t',
    SignWith publicKey signer t = Normal tt t' /\
    pbBody (Transaction_ t') = pbBody (Transaction_ t) /\
    id (Transaction_ t') = id (Transaction_ t) /\
    nodeIDs (Transaction_ t') = nodeIDs (Transaction_ t) /\
    transactions (Transaction_ t') = transactions (Transaction_ t) /\
    pb t' = pb t /\
    length (signatures (Transaction_ t')) = length (signatures (Transaction_ t)) /\
    forall i body m,
      transactions (Transaction_ t) !! i = Some body ->
      signatures (Transaction_ t) !! i = Some m ->
      exists m',
        signatures (Transaction_ t') !! i = Some m' /\
        proto.SigPair m'
        = proto.SigPair m
          ++ [toSignaturePairProtobuf publicKey (signer (proto.GetBodyBytes body))].
Proof.
  intros ((Hlen & _) & _)%reachable_wf Hf Hk.
  exists (set_Transaction
            (set_signatures (signAll publicKey signer (Transaction_ t))
               (Transaction_ t)) t).
  split.
  { rewrite SignWith_unsigned; rewrite Hf; done. }
  cbn. repeat (split; [done|]). split.
  - unfold signAll. rewrite length_zip_with_r_eq; done.
  - intros i body m Hbody Hm. exists (addSignature publicKey signer body m).
    split; [|done]. unfold signAll. by rewrite lookup_zip_with, Hbody, Hm.
Qed.

Lemma SignWith_signs_each_node_body_witness :
  exists t',
    @SignWith Sample.toyCollaborators Sample.otherKey Sample.toySigner
      Sample.frozenForOperator = Normal tt t' /\
    transactions (Transaction_ t') = transactions (Transaction_ Sample.frozenForOperator).
Proof.
  destruct (@SignWith_signs_each_node_body Sample.toyCollaborators
              Sample.frozenForOperator Sample.otherKey Sample.toySigner)
    as (t' & Hrun & _ & _ & _ & Htx & _).
  - do 2 apply reachable_runAll. constructor.
  - reflexivity.
  - reflexivity.
  - exists t'. split; [exact Hrun|exact Htx].
Defined.

(** X10: signing with one key leaves the entries of every other key as
    they are, in every signature map of a frozen transaction built through
    the methods. *)
Theorem SignWith_keeps_other_signers `{Collaborators}
    (t : TransferTransaction) (publicKey other : Key.PublicKey)
    (signer : TransactionSigner) :
  reachable t ->
  isFrozen (Transaction_ t) = true ->
  other <> publicKey ->
  Forall2 (fun m m' => entriesOf other m' = entriesOf other m)
          (signatures (Transaction_ t))
          (signatures (Transaction_ (final_state (SignWith publicKey signer t)))).
Proof.
  intros ((Hlen & _) & _)%reachable_wf Hf Hne.
  destruct (keyAlreadySigned publicKey (Transaction_ t)) eqn:Hk.
  - rewrite SignWith_signed; rewrite Hf; [|done]. cbn.
    apply Forall2_same_length_lookup. split; [done|]. by intros i m m' -> [= ->].
  - rewrite SignWith_unsigned; rewrite Hf; [|done..]. cbn.
    by apply zip_with_addSignature_others.
Qed.

Lemma SignWith_keeps_other_signers_witness :
  Forall2 (fun m m' => entriesOf Sample.operatorKey m' = entriesOf Sample.operatorKey m)
          (signatures (Transaction_ Sample.frozenForOperator))
          (signatures
             (Transaction_
                (final_state
                   (@SignWith Sample.toyCollaborators Sample.otherKey Sample.toySigner
                      Sample.frozenForOperator)))).
Proof.
  apply (@SignWith_keeps_other_signers Sample.toyCollaborators).
  - do 2 apply reachable_runAll. constructor.
  - reflexivity.
  - discriminate.
Defined.

(** X11: on a transaction built through the methods there is one
    signature map per per-node body, so the loop of [SignWith] never indexes
    [signatures] out of range: [SignWith] returns normally for every key and
    signer. *)
Theorem SignWith_never_out_of_range `{Collaborators} (t : TransferTransaction) :
  reachable t ->
  length (signatures (Transaction_ t)) = length (transactions (Transaction_ t)) /\
  forall publicKey signer, exists t', SignWith publicKey signer t = Normal tt t'.
Proof.
  intros Hwf%reachable_wf. split; [apply Hwf|].
  intros publicKey signer. eexists. by apply SignWith_returns.
Qed.

Lemma SignWith_never_out_of_range_witness :
  exists t',
    @SignWith Sample.toyCollaborators Sample.otherKey Sample.toySigner
      Sample.frozenTransfer = Normal tt t'.
Proof.
  apply (@SignWith_never_out_of_range Sample.toyCollaborators Sample.frozenTransfer).
  apply reachable_runAll. constructor.
Defined.

(** X12: [SignWithOperator] dereferences the client first (a nil client
    panics); with a client that has no operator it returns
    [errClientOperatorSigning] before it freezes or signs, the transaction
    unchanged; with an operator, on a transaction built through the methods,
    it returns no error and every signature map then holds exactly one entry
    of the operator's key. *)
Theorem SignWithOperator_outcomes `{Collaborators} (t : TransferTransaction) :
  SignWithOperator None t = Panic NilPointerDereference t /\
  (forall c, operator c = None ->
     SignWithOperator (Some c) t = Normal (Some errClientOperatorSigning) t) /\
  (forall c op, operator c = Some op -> reachable t ->
     exists t',
       SignWithOperator (Some c) t = Normal None t' /\
       Forall (fun m => length (entriesOf (publicKey op) m) = 1)
              (signatures (Transaction_ t'))).
Proof.
  split; [done|]. split.
  - intros c Hop. rewrite SignWithOperator_unfold. by rewrite Hop.
  - intros c op Hop Hwf%reachable_wf. rewrite SignWithOperator_unfold, Hop.
    cbv zeta.
    assert (wf (if isFrozen (Transaction_ t) then t
                else final_state (FreezeWith (Some c) t))) as Hwf0.
    { case_match; [done|]. by apply wf_FreezeWith. }
    destruct (SignWith_one_entry (publicKey op) (signer op) _ Hwf0)
      as (t1 & Hrun & Hone).
    exists t1. unfold mbind, M_bind. rewrite Hrun. done.
Qed.

Lemma SignWithOperator_outcomes_witness :
  @SignWithOperator Sample.toyCollaborators (Some Sample.clientWithoutOperator)
    Sample.readyToFreeze
  = Normal (Some errClientOperatorSigning) Sample.readyToFreeze.
Proof.
  exact (proj1 (proj2 (@SignWithOperator_outcomes Sample.toyCollaborators
                         Sample.readyToFreeze))
           Sample.clientWithoutOperator eq_refl).
Defined.

(** X13: [Execute] signs for the operator only: when the payer of a frozen
    transaction is not the client's operator account (or that account is
    zero), the transaction goes to the engine as it is, and the result is
    the engine's error, or the response made of the transaction's id and the
    node the engine names. *)
Theorem Execute_signs_for_the_operator_only `{Collaborators}
    (t : TransferTransaction) (c : Client) :
  isFrozen (Transaction_ t) = true ->
  negb (isZero (GetOperatorAccountID c))
  && equals (GetOperatorAccountID c)
       (TransactionID_AccountID (id (Transaction_ t))) = false ->
  exists t',
    Execute (Some c) t
    = Normal
        match execute c (Transaction_ t) with
        | inl err => inl err
        | inr node =>
            inr {| TransactionResponse_TransactionID := id (Transaction_ t);
                   NodeID := node |}
        end
        t'.
Proof.
  intros Hf Hcond. exists t. unfold Execute, mbind, M_bind at 1.
  rewrite Execute_autoSign_unfold. cbv zeta. rewrite Hf, Hcond.
  unfold Execute_dispatch. run_method. by destruct (execute c (Transaction_ t)).
Qed.

Lemma Execute_signs_for_the_operator_only_witness :
  exists t',
    @Execute Sample.toyCollaborators (Some Sample.sampleClient) Sample.frozenUnsigned
    = Normal
        (inr {| TransactionResponse_TransactionID :=
                  id (Transaction_ Sample.frozenUnsigned);
                NodeID := Sample.account 3 |})
        t'.
Proof.
  exact (@Execute_signs_for_the_operator_only Sample.toyCollaborators
           Sample.frozenUnsigned Sample.sampleClient eq_refl eq_refl).
Defined.
